(** * OSToken: the token index of the SoftHSMv2 object store

    A shallow embedding of [src/trunk/src/lib/object_store/OSToken.cpp].
    The collaborators that live outside that file (Directory, ObjectFile,
    IPCSignal, the mutex factory) are modelled at the interface the code
    uses; whatever they return that depends on the file system or on other
    processes is an explicit input (an "environment") of the operation. *)

From Stdlib Require Import ZArith Bool Ascii.
From stdpp Require Import base gmap sets list strings.

Open Scope string_scope.

(* ------------------------------------------------------------------ *)
(** ** PKCS#11 constants used by the token *)

Definition CKF_RNG : Z := 1.
Definition CKF_LOGIN_REQUIRED : Z := 4.
Definition CKF_USER_PIN_INITIALIZED : Z := 8.
Definition CKF_RESTORE_KEY_NOT_NEEDED : Z := 32.
Definition CKF_TOKEN_INITIALIZED : Z := 1024.
Definition CKF_SO_PIN_LOCKED : Z := 4194304.
Definition CKF_SO_PIN_TO_BE_CHANGED : Z := 8388608.

(** Attribute identifiers of the token object (OSAttributes.h). *)
Inductive AttrId :=
  | CKA_OS_TOKENLABEL
  | CKA_OS_TOKENSERIAL
  | CKA_OS_TOKENFLAGS
  | CKA_OS_SOPIN
  | CKA_OS_USERPIN.

#[global] Instance AttrId_eq_dec : EqDecision AttrId.
Proof. solve_decision. Defined.

(** An [OSAttribute] holds a byte string or an unsigned long. *)
Inductive OSAttribute :=
  | AttrBytes (b : list Byte.byte)
  | AttrULong (n : Z).

Definition getByteStringValue (a : OSAttribute) : list Byte.byte :=
  match a with AttrBytes b => b | AttrULong _ => [] end.

Definition getUnsignedLongValue (a : OSAttribute) : Z :=
  match a with AttrULong n => n | AttrBytes _ => 0 end.

(* ------------------------------------------------------------------ *)
(** ** The metadata object (ObjectFile "tokenObject") *)

(** Modelled from the spec: ObjectFile (not in src/), an Attribute
    Container with [isValid], [getAttribute], [setAttribute] and
    [attributeExists]. Its validity and whether a write reaches the disk
    depend on the file system, so [setAttribute] takes the outcome of the
    write as its first argument. *)
Record ObjectFile := mkObjectFile {
  of_valid : bool;
  of_attrs : AttrId -> option OSAttribute
}.

Definition of_isValid (o : ObjectFile) : bool := of_valid o.

Definition getAttribute (o : ObjectFile) (id : AttrId) : option OSAttribute :=
  of_attrs o id.

Definition attributeExists (o : ObjectFile) (id : AttrId) : bool :=
  match of_attrs o id with Some _ => true | None => false end.

Definition setAttribute (write_ok : bool) (o : ObjectFile) (id : AttrId)
    (a : OSAttribute) : ObjectFile * bool :=
  if write_ok then
    (mkObjectFile (of_valid o)
       (fun j => if decide (j = id) then Some a else of_attrs o j), true)
  else (o, false).

(* ------------------------------------------------------------------ *)
(** ** Object handles and the token state *)

(** An object handle ([ObjectFile*] for an object file): the path it was
    opened on, whether the file opened and parsed, and the token it was
    linked to by [linkToken]. *)
Record Handle := mkHandle {
  h_path : string;
  h_valid : bool;
  h_token : string
}.

(** Modelled from the spec: ObjectFile::getFilename (not in src/), the
    backing file name of a handle, i.e. the last component of its path. *)
Fixpoint basename_aux (s acc : string) : string :=
  match s with
  | EmptyString => acc
  | String c s' =>
      if Ascii.eqb c "/"%char then basename_aux s' ""
      else basename_aux s' (acc ++ String c "")
  end.

Definition getFilename (h : Handle) : string := basename_aux (h_path h) "".

(** The process-shared change signal ([IPCSignal]); [wasTriggered]
    reports whether it was triggered and consumes the trigger. *)
Record IPCSignal := mkIPCSignal { sig_triggered : bool }.

Definition wasTriggered (s : IPCSignal) : IPCSignal * bool :=
  (mkIPCSignal false, sig_triggered s).

(** The members of [OSToken]. Pointers to [ObjectFile] are addresses
    into [heap]; [next_ptr] is the next fresh address, so two handles for
    the same file are two different elements of [objects]. *)
Record OSToken := mkOSToken {
  tokenPath : string;
  tokenDir_valid : bool;
  tokenObject : ObjectFile;
  sync : option IPCSignal;
  tokenMutex : bool;
  valid : bool;
  currentFiles : gset string;
  objects : gset positive;
  allObjects : gset positive;
  heap : gmap positive Handle;
  next_ptr : positive
}.

Definition set_tokenObject (t : OSToken) (o : ObjectFile) : OSToken :=
  mkOSToken (tokenPath t) (tokenDir_valid t) o (sync t) (tokenMutex t)
    (valid t) (currentFiles t) (objects t) (allObjects t) (heap t) (next_ptr t).

Definition set_sync (t : OSToken) (s : option IPCSignal) : OSToken :=
  mkOSToken (tokenPath t) (tokenDir_valid t) (tokenObject t) s (tokenMutex t)
    (valid t) (currentFiles t) (objects t) (allObjects t) (heap t) (next_ptr t).

Definition set_valid (t : OSToken) (b : bool) : OSToken :=
  mkOSToken (tokenPath t) (tokenDir_valid t) (tokenObject t) (sync t)
    (tokenMutex t) b (currentFiles t) (objects t) (allObjects t) (heap t)
    (next_ptr t).

(* ------------------------------------------------------------------ *)
(** ** OSToken::index *)

(** What the file system answers during one reconciliation:
    [tokenDir->refresh()], the listing [tokenDir->getFiles()] after it,
    and whether [new ObjectFile(path)] opens and parses the file at
    [path]. *)
Record IndexEnv := mkIndexEnv {
  env_refresh : bool;
  env_files : list string;
  env_object_valid : string -> bool
}.

(** [std::string::substr(pos)]: the characters from [pos] to the end. *)
Definition substr_from (pos : nat) (s : string) : string :=
  String.substring pos (String.length s - pos) s.

(** The filter of the listing loop:
    [(i->size() > 7) && (!(i->substr(i->size() - 7).compare(".object")))]. *)
Definition isObjectFileName (s : string) : bool :=
  (7 <? String.length s)%nat &&
  String.eqb (substr_from (String.length s - 7) s) ".object".

(** [newSet]: the object files of the listing. *)
Definition filterObjects (tokenFiles : list string) : gset string :=
  fold_left (fun acc f => if isObjectFileName f then {[f]} ∪ acc else acc)
    tokenFiles ∅.

(** One iteration of the "Add new objects" loop: a fresh [ObjectFile] on
    [tokenPath + "/" + name], linked to this token, inserted into
    [objects] and [allObjects]. *)
Definition addObject (env : IndexEnv) (t : OSToken) (name : string) : OSToken :=
  let p := next_ptr t in
  let path := tokenPath t ++ "/" ++ name in
  let h := mkHandle path (env_object_valid env path) (tokenPath t) in
  mkOSToken (tokenPath t) (tokenDir_valid t) (tokenObject t) (sync t)
    (tokenMutex t) (valid t) (currentFiles t)
    ({[p]} ∪ objects t) ({[p]} ∪ allObjects t) (<[p:=h]> (heap t))
    (Pos.succ p).

(** The "Remove deleted objects" loop: the objects whose file name is not
    in [removedFiles] stay. Every element of [objects] is allocated in
    [heap]; the [None] case is never reached. *)
Definition keepObject (t : OSToken) (removedFiles : gset string)
    (p : positive) : bool :=
  match heap t !! p with
  | Some h => bool_decide (getFilename h ∉ removedFiles)
  | None => true
  end.

Definition removeObjects (t : OSToken) (removedFiles : gset string) : OSToken :=
  mkOSToken (tokenPath t) (tokenDir_valid t) (tokenObject t) (sync t)
    (tokenMutex t) (valid t) (currentFiles t)
    (filter (fun p => keepObject t removedFiles p = true) (objects t))
    (allObjects t) (heap t) (next_ptr t).

(** The re-indexing check
    [if (!isFirstTime && (!valid || !sync->wasTriggered())) return true;]:
    the token after the check (the poll consumes the signal) and whether
    the function returns there. [valid] only holds when the constructor
    obtained a non-null [sync], which is never reset afterwards, so the
    [None] case is never reached. *)
Definition reindexCheck (isFirstTime : bool) (t : OSToken) : OSToken * bool :=
  if isFirstTime then (t, false)
  else if negb (valid t) then (t, true)
  else match sync t with
       | Some s => let '(s', trig) := wasTriggered s in
                   (set_sync t (Some s'), negb trig)
       | None => (t, true)
       end.

(** "Compute the changes compared to the last list of files". *)
Definition addedFiles (isFirstTime : bool) (current newSet : gset string)
    : gset string :=
  if negb isFirstTime then filter (fun f => f ∉ current) newSet else newSet.

Definition removedFiles (isFirstTime : bool) (current newSet : gset string)
    : gset string :=
  if negb isFirstTime then filter (fun f => f ∉ newSet) current else ∅.

Definition index (env : IndexEnv) (isFirstTime : bool) (t0 : OSToken)
    : OSToken * bool :=
  let '(t, skip) := reindexCheck isFirstTime t0 in
  if skip then (t, true) else
  (* Check the integrity *)
  if negb (env_refresh env) || negb (of_isValid (tokenObject t))
  then (set_valid t false, false) else
  let newSet := filterObjects (env_files env) in
  let added := addedFiles isFirstTime (currentFiles t) newSet in
  let removed := removedFiles isFirstTime (currentFiles t) newSet in
  let t := fold_left (addObject env) (elements added) t in
  let t := removeObjects t removed in
  (t, true).

(* ------------------------------------------------------------------ *)
(** ** Construction *)

(** What the constructor obtains: [new Directory(tokenPath)]'s validity,
    the [ObjectFile] opened on [tokenPath + "/tokenObject"],
    [IPCSignal::create(tokenPath)], whether [getMutex()] is non-null, and
    what the file system answers during the first [index(true)]. *)
Record CtorEnv := mkCtorEnv {
  ctor_dir_valid : bool;
  ctor_tokenObject : ObjectFile;
  ctor_sync : option IPCSignal;
  ctor_mutex : bool;
  ctor_index : IndexEnv
}.

Definition OSToken_new (env : CtorEnv) (path : string) : OSToken :=
  let t := mkOSToken path (ctor_dir_valid env) (ctor_tokenObject env)
             (ctor_sync env) (ctor_mutex env)
             (bool_decide (is_Some (ctor_sync env)) && ctor_mutex env && ctor_dir_valid env
              && of_isValid (ctor_tokenObject env))
             ∅ ∅ ∅ ∅ 1%positive in
  fst (index (ctor_index env) true t).

(* ------------------------------------------------------------------ *)
(** ** PIN and flag accessors *)

(** [setSOPIN]: the body writes the attribute and then falls off the end
    of a function returning [bool] (there is no [return] statement), so the
    value the caller receives is indeterminate. [ret] stands for that
    value; the outcome of the write is discarded. *)
Definition setSOPIN (write_ok ret : bool) (t : OSToken) (soPINBlob : list Byte.byte)
    : OSToken * bool :=
  let '(o, _) := setAttribute write_ok (tokenObject t) CKA_OS_SOPIN
                   (AttrBytes soPINBlob) in
  (set_tokenObject t o, ret).

(** [getSOPIN]: [Some blob] stands for [true] with [soPINBlob] set. *)
Definition getSOPIN (t : OSToken) : option (list Byte.byte) :=
  if negb (of_isValid (tokenObject t)) then None else
  match getAttribute (tokenObject t) CKA_OS_SOPIN with
  | Some a => Some (getByteStringValue a)
  | None => None
  end.

Definition setUserPIN (write_ok : bool) (t : OSToken) (userPINBlob : list Byte.byte)
    : OSToken * bool :=
  let '(o, r) := setAttribute write_ok (tokenObject t) CKA_OS_USERPIN
                   (AttrBytes userPINBlob) in
  (set_tokenObject t o, r).

Definition getUserPIN (t : OSToken) : option (list Byte.byte) :=
  if negb (of_isValid (tokenObject t)) then None else
  match getAttribute (tokenObject t) CKA_OS_USERPIN with
  | Some a => Some (getByteStringValue a)
  | None => None
  end.

Definition getTokenFlags (t : OSToken) : option Z :=
  if negb (of_isValid (tokenObject t)) then None else
  match getAttribute (tokenObject t) CKA_OS_TOKENFLAGS with
  | Some a =>
      let flags := getUnsignedLongValue a in
      (* Check if the user PIN is initialised *)
      if attributeExists (tokenObject t) CKA_OS_USERPIN
      then Some (Z.lor flags CKF_USER_PIN_INITIALIZED)
      else Some flags
  | None => None
  end.

Definition setTokenFlags (write_ok : bool) (t : OSToken) (flags : Z)
    : OSToken * bool :=
  let '(o, r) := setAttribute write_ok (tokenObject t) CKA_OS_TOKENFLAGS
                   (AttrULong flags) in
  (set_tokenObject t o, r).

(** [getObjects]: reconcile, then copy [objects] under the lock. *)
Definition getObjects (env : IndexEnv) (t : OSToken) : OSToken * gset positive :=
  let t' := fst (index env false t) in
  (t', objects t').

Definition isValid (t : OSToken) : bool := valid t.

(* ------------------------------------------------------------------ *)
(** ** Runs of operations *)

(** The public operations of a token, and the two things another process
    can do to it: trigger the change signal, and corrupt or repair the
    metadata file (which changes what [tokenObject->isValid()] answers). *)
Inductive Op :=
  | OpIndex (isFirstTime : bool)
  | OpGetObjects
  | OpSetSOPIN (blob : list Byte.byte)
  | OpGetSOPIN
  | OpSetUserPIN (blob : list Byte.byte)
  | OpGetUserPIN
  | OpGetTokenFlags
  | OpSetTokenFlags (flags : Z)
  | OpIsValid
  | ExtTrigger
  | ExtMetaValidity (b : bool).

(** The environment of one operation. *)
Record StepEnv := mkStepEnv {
  se_index : IndexEnv;
  se_write_ok : bool;
  se_ret : bool
}.

Definition step (e : StepEnv) (op : Op) (t : OSToken) : OSToken :=
  match op with
  | OpIndex b => fst (index (se_index e) b t)
  | OpGetObjects => fst (getObjects (se_index e) t)
  | OpSetSOPIN blob => fst (setSOPIN (se_write_ok e) (se_ret e) t blob)
  | OpSetUserPIN blob => fst (setUserPIN (se_write_ok e) t blob)
  | OpSetTokenFlags f => fst (setTokenFlags (se_write_ok e) t f)
  | OpGetSOPIN | OpGetUserPIN | OpGetTokenFlags | OpIsValid => t
  | ExtTrigger =>
      match sync t with
      | Some _ => set_sync t (Some (mkIPCSignal true))
      | None => t
      end
  | ExtMetaValidity b =>
      set_tokenObject t (mkObjectFile b (of_attrs (tokenObject t)))
  end.

Fixpoint run (ops : list (StepEnv * Op)) (t : OSToken) : OSToken :=
  match ops with
  | [] => t
  | (e, op) :: ops' => run ops' (step e op t)
  end.

(* ------------------------------------------------------------------ *)
(** ** Token creation *)

(** Modelled from the spec: Directory (not in src/) on the base path, with
    its validity and its entries as paths relative to the base directory
    (["d"] for a subdirectory, ["d/f"] for a file in it). [mkdir] and
    [remove] take whether the file-system call goes through as their first
    argument: [mkdir] fails on an existing entry, [remove] on a missing
    entry or a directory that still has entries. *)
Record Directory := mkDirectory {
  dir_valid : bool;
  dir_entries : gset string
}.

Definition has_children (d : Directory) (name : string) : bool :=
  existsb (fun p => String.prefix (name ++ "/") p) (elements (dir_entries d)).

Definition dir_mkdir (ok : bool) (d : Directory) (name : string)
    : Directory * bool :=
  if ok && bool_decide (name ∉ dir_entries d)
  then (mkDirectory (dir_valid d) ({[name]} ∪ dir_entries d), true)
  else (d, false).

Definition dir_remove (ok : bool) (d : Directory) (name : string)
    : Directory * bool :=
  if ok && bool_decide (name ∈ dir_entries d) && negb (has_children d name)
  then (mkDirectory (dir_valid d) (dir_entries d ∖ {[name]}), true)
  else (d, false).

(** What the file system answers during [createToken]: [mkdir], whether
    [ObjectFile(..., true)] creates the token object, the three attribute
    writes, the two rollback removals, and the environment of the final
    [new OSToken(...)]. *)
Record CreateEnv := mkCreateEnv {
  ce_mkdir_ok : bool;
  ce_create_ok : bool;
  ce_write_label : bool;
  ce_write_serial : bool;
  ce_write_flags : bool;
  ce_remove_file_ok : bool;
  ce_remove_dir_ok : bool;
  ce_token : CtorEnv
}.

Definition initialFlags : Z :=
  Z.lor CKF_RNG (Z.lor CKF_LOGIN_REQUIRED (Z.lor CKF_RESTORE_KEY_NOT_NEEDED
    (Z.lor CKF_TOKEN_INITIALIZED (Z.lor CKF_SO_PIN_LOCKED CKF_SO_PIN_TO_BE_CHANGED)))).

(** The three writes of "Set the initial attributes", combined with the
    short-circuiting [||] of the source. *)
Definition writeInitialAttributes (env : CreateEnv) (o : ObjectFile)
    (label serial : list Byte.byte) : ObjectFile * bool :=
  let '(o, ok) := setAttribute (ce_write_label env) o CKA_OS_TOKENLABEL (AttrBytes label) in
  if negb ok then (o, false) else
  let '(o, ok) := setAttribute (ce_write_serial env) o CKA_OS_TOKENSERIAL (AttrBytes serial) in
  if negb ok then (o, false) else
  setAttribute (ce_write_flags env) o CKA_OS_TOKENFLAGS (AttrULong initialFlags).

(** [createToken]: the base directory afterwards and the result ([None]
    for [NULL]). *)
Definition createToken (env : CreateEnv) (baseDir : Directory)
    (basePath tokenDir : string) (label serial : list Byte.byte)
    : Directory * option OSToken :=
  if negb (dir_valid baseDir) then (baseDir, None) else
  let '(baseDir, ok) := dir_mkdir (ce_mkdir_ok env) baseDir tokenDir in
  if negb ok then (baseDir, None) else
  let objPath := tokenDir ++ "/tokenObject" in
  if negb (ce_create_ok env) then
    (fst (dir_remove (ce_remove_dir_ok env) baseDir tokenDir), None) else
  let baseDir := mkDirectory (dir_valid baseDir) ({[objPath]} ∪ dir_entries baseDir) in
  let tokenObject := mkObjectFile true (fun _ => None) in
  let '(_, ok) := writeInitialAttributes env tokenObject label serial in
  if negb ok then
    let baseDir := fst (dir_remove (ce_remove_file_ok env) baseDir objPath) in
    let baseDir := fst (dir_remove (ce_remove_dir_ok env) baseDir tokenDir) in
    (baseDir, None)
  else (baseDir, Some (OSToken_new (ce_token env) (basePath ++ "/" ++ tokenDir))).

(** The constructor environment with another result of
    [IPCSignal::create]. *)
Definition ctor_with_sync (env : CtorEnv) (s : option IPCSignal) : CtorEnv :=
  mkCtorEnv (ctor_dir_valid env) (ctor_tokenObject env) s (ctor_mutex env)
    (ctor_index env).

(** Whether a name contains a path separator; directory entries do not. *)
Fixpoint has_slash (s : string) : bool :=
  match s with
  | EmptyString => false
  | String c s' => Ascii.eqb c "/"%char || has_slash s'
  end.

(** The ownership invariant of the handle bookkeeping: live objects are
    among all objects ever created, every created object is allocated, and
    every allocated address is below the next fresh one. *)
Definition token_wf (t : OSToken) : Prop :=
  (objects t ⊆ allObjects t) /\
  (forall p, p ∈ allObjects t -> is_Some (heap t !! p)) /\
  (forall p, is_Some (heap t !! p) -> (p < next_ptr t)%positive).

(* ------------------------------------------------------------------ *)
(** ** Concrete runs *)

(** A token directory holding one object file, [a.object], next to the
    token object, on which every file-system call succeeds. *)
Definition ex_files : list string := ["a.object"; "tokenObject"].

Definition ex_index_env : IndexEnv := mkIndexEnv true ex_files (fun _ => true).

Definition ex_step_env : StepEnv := mkStepEnv ex_index_env true true.

Definition ex_meta : ObjectFile := mkObjectFile true (fun _ => None).

Definition ex_ctor_env : CtorEnv :=
  mkCtorEnv true ex_meta (Some (mkIPCSignal false)) true ex_index_env.

(** The token right after construction. *)
Definition ex_token0 : OSToken := OSToken_new ex_ctor_env "/tmp/t".

(** The same token after another process triggers the change signal and
    the token is asked for its objects (a signal-triggered pass). *)
Definition ex_token1 : OSToken :=
  run [(ex_step_env, ExtTrigger); (ex_step_env, OpGetObjects)] ex_token0.

(** The backing file names of the live objects of a token. *)
Definition liveFileNames (t : OSToken) : list string :=
  omap (fun p => getFilename <$> heap t !! p) (elements (objects t)).

(* ================================================================== *)
(** * Properties *)

(** ** Helper lemmas *)

Lemma reindexCheck_fields (b : bool) (t t1 : OSToken) (skip : bool) :
  reindexCheck b t = (t1, skip) ->
  tokenPath t1 = tokenPath t /\ tokenObject t1 = tokenObject t /\
  valid t1 = valid t /\ currentFiles t1 = currentFiles t /\
  objects t1 = objects t /\ allObjects t1 = allObjects t /\
  heap t1 = heap t /\ next_ptr t1 = next_ptr t /\
  (b = true -> t1 = t /\ skip = false).
Proof.
  unfold reindexCheck. destruct b.
  - intros [= <- <-]. repeat split.
  - destruct (valid t) eqn:Hv; simpl.
    + destruct (sync t) as [s|]; cbn;
        intros [= <- <-]; repeat split; simpl; congruence.
    + intros [= <- <-]; repeat split; congruence.
Qed.

Lemma fold_addObject_fields (env : IndexEnv) (l : list string) (t : OSToken) :
  let t' := fold_left (addObject env) l t in
  tokenPath t' = tokenPath t /\ tokenObject t' = tokenObject t /\
  valid t' = valid t /\ currentFiles t' = currentFiles t /\ sync t' = sync t.
Proof.
  revert t; induction l as [|n l IH]; intros t; simpl; [repeat split|].
  destruct (IH (addObject env t n)) as (H1 & H2 & H3 & H4 & H5).
  rewrite H1, H2, H3, H4, H5. repeat split.
Qed.

Lemma index_currentFiles (env : IndexEnv) (b : bool) (t : OSToken) :
  currentFiles (fst (index env b t)) = currentFiles t.
Proof.
  unfold index. destruct (reindexCheck b t) as [t1 skip] eqn:Hr.
  destruct (reindexCheck_fields _ _ _ _ Hr) as (_ & _ & _ & Hc & _).
  destruct skip; [exact Hc|].
  destruct (negb (env_refresh env) || negb (of_isValid (tokenObject t1)));
    [exact Hc|].
  simpl. destruct (fold_addObject_fields env
    (elements (addedFiles b (currentFiles t1) (filterObjects (env_files env)))) t1)
    as (_ & _ & _ & Hc' & _).
  rewrite Hc'. exact Hc.
Qed.

(** ** C1 *)

(** C1 (code_bug): reconciliation never replaces [currentFiles] (the
    known file names) with [newSet]: [index] leaves it as it was, so after
    the construction pass and a signal-triggered pass over a directory
    holding [a.object], the known file names are still empty while
    [newSet] is [{a.object}]. *)
Theorem index_never_updates_currentFiles :
  (forall (env : IndexEnv) (b : bool) (t : OSToken),
      currentFiles (fst (index env b t)) = currentFiles t) /\
  valid ex_token1 = true /\
  currentFiles ex_token1 = ∅ /\
  filterObjects ex_files = {["a.object"]}.
Proof.
  split; [exact index_currentFiles|].
  split; [vm_compute; reflexivity|].
  split; vm_compute; reflexivity.
Qed.

(** ** C2 *)

(** C2 (code_bug): right after a successful signal-triggered pass over a
    directory holding [a.object], the live objects hold two handles for
    [a.object] (one per pass) and the known file names are empty: the
    one-to-one correspondence fails both ways. *)
Lemma reconciliation_duplicates_handles :
  let t := step ex_step_env ExtTrigger ex_token0 in
  index ex_index_env false t = (ex_token1, true) /\
  liveFileNames ex_token1 = ["a.object"; "a.object"] /\
  currentFiles ex_token1 = ∅.
Proof. vm_compute. repeat split. Qed.

(** ** C3 *)

(** C3 (counterexample): the entry named exactly [.object] (seven
    characters) is not put in [newSet], since the filter asks for more
    than seven characters. *)
Lemma dot_object_excluded :
  isObjectFileName ".object" = false /\
  filterObjects [".object"; "x.object"] = {["x.object"]}.
Proof. vm_compute. split; reflexivity. Qed.

(** ** C4 *)

(** C4 (code_bug): [setSOPIN] performs the write but its result is the
    indeterminate value of a function that falls off its end: whatever the
    write does, the caller receives [ret]; a failed write can be reported
    as a success. Its sibling [setUserPIN] returns the write's result. *)
Theorem setSOPIN_ignores_write_result :
  (forall (write_ok ret : bool) (t : OSToken) (blob : list Byte.byte),
      tokenObject (fst (setSOPIN write_ok ret t blob)) =
        fst (setAttribute write_ok (tokenObject t) CKA_OS_SOPIN (AttrBytes blob)) /\
      snd (setSOPIN write_ok ret t blob) = ret /\
      snd (setUserPIN write_ok t blob) = write_ok) /\
  snd (setAttribute false (tokenObject ex_token0) CKA_OS_SOPIN
         (AttrBytes [Byte.x31; Byte.x32; Byte.x33; Byte.x34])) = false /\
  snd (setSOPIN false true ex_token0 [Byte.x31; Byte.x32; Byte.x33; Byte.x34]) = true.
Proof.
  split; [|split; reflexivity].
  intros [|] ret t blob; repeat split.
Qed.

(** ** C8 *)

(** C8: a non-first-time [index] on an invalid token returns [true] and
    changes nothing (the signal is not even polled), so [getObjects]
    returns the token's current [objects] unchanged. *)
Theorem index_invalid_is_noop (env : IndexEnv) (t : OSToken)
    (Hinvalid : valid t = false) :
  index env false t = (t, true) /\ getObjects env t = (t, objects t).
Proof.
  unfold getObjects, index, reindexCheck. rewrite Hinvalid. simpl.
  split; reflexivity.
Qed.

Lemma index_invalid_is_noop_witness :
  valid (set_valid ex_token0 false) = false /\
  index ex_index_env false (set_valid ex_token0 false) = (set_valid ex_token0 false, true) /\
  getObjects ex_index_env (set_valid ex_token0 false) =
    (set_valid ex_token0 false, objects (set_valid ex_token0 false)).
Proof.
  split; [reflexivity|].
  apply (index_invalid_is_noop ex_index_env (set_valid ex_token0 false)).
  reflexivity.
Defined.

(** ** C5 *)

(** C5 (counterexample): a token whose stored flags were set to
    [CKF_USER_PIN_INITIALIZED] by [setTokenFlags] and which has no user
    PIN: [getTokenFlags] reports the bit while [getUserPIN] fails. *)
Lemma raw_user_pin_bit_reported :
  let t := fst (setTokenFlags true ex_token0 CKF_USER_PIN_INITIALIZED) in
  getTokenFlags t = Some CKF_USER_PIN_INITIALIZED /\
  Z.testbit CKF_USER_PIN_INITIALIZED 3 = true /\
  getUserPIN t = None.
Proof. vm_compute. repeat split. Qed.

(** C5 (amended): when [getTokenFlags] succeeds it returns the stored
    flags with [CKF_USER_PIN_INITIALIZED] OR-ed in exactly when
    [getUserPIN] would succeed; the bit is set when [getUserPIN] would
    succeed and otherwise equals the bit of the stored flags. *)
Theorem getTokenFlags_user_pin_bit (t : OSToken) (f : Z)
    (Hok : getTokenFlags t = Some f) :
  exists a : OSAttribute,
    getAttribute (tokenObject t) CKA_OS_TOKENFLAGS = Some a /\
    f = (if bool_decide (is_Some (getUserPIN t))
         then Z.lor (getUnsignedLongValue a) CKF_USER_PIN_INITIALIZED
         else getUnsignedLongValue a) /\
    Z.testbit f 3 =
      bool_decide (is_Some (getUserPIN t)) || Z.testbit (getUnsignedLongValue a) 3.
Proof.
  revert Hok. unfold getTokenFlags, getUserPIN, attributeExists, getAttribute.
  destruct (of_isValid (tokenObject t)); cbn [negb]; [|discriminate].
  destruct (of_attrs (tokenObject t) CKA_OS_TOKENFLAGS) as [a|]; [|discriminate].
  destruct (of_attrs (tokenObject t) CKA_OS_USERPIN) as [u|];
    intros [= <-]; exists a; (split; [reflexivity|]).
  - rewrite bool_decide_eq_true_2 by (eexists; reflexivity).
    split; [reflexivity|].
    rewrite Z.lor_spec. unfold CKF_USER_PIN_INITIALIZED. simpl.
    rewrite orb_true_r. reflexivity.
  - rewrite bool_decide_eq_false_2 by (intros [? Hx]; discriminate).
    split; reflexivity.
Qed.

Lemma getTokenFlags_user_pin_bit_witness :
  getTokenFlags (fst (setTokenFlags true ex_token0 CKF_USER_PIN_INITIALIZED))
    = Some CKF_USER_PIN_INITIALIZED /\
  exists a : OSAttribute,
    getAttribute (tokenObject (fst (setTokenFlags true ex_token0 CKF_USER_PIN_INITIALIZED)))
      CKA_OS_TOKENFLAGS = Some a /\
    CKF_USER_PIN_INITIALIZED =
      (if bool_decide (is_Some (getUserPIN (fst (setTokenFlags true ex_token0 CKF_USER_PIN_INITIALIZED))))
       then Z.lor (getUnsignedLongValue a) CKF_USER_PIN_INITIALIZED
       else getUnsignedLongValue a) /\
    Z.testbit CKF_USER_PIN_INITIALIZED 3 =
      bool_decide (is_Some (getUserPIN (fst (setTokenFlags true ex_token0 CKF_USER_PIN_INITIALIZED))))
      || Z.testbit (getUnsignedLongValue a) 3.
Proof.
  split; [vm_compute; reflexivity|].
  apply (getTokenFlags_user_pin_bit
           (fst (setTokenFlags true ex_token0 CKF_USER_PIN_INITIALIZED))
           CKF_USER_PIN_INITIALIZED).
  vm_compute. reflexivity.
Defined.

(** ** C6 *)

Ltac destruct_setAttribute :=
  match goal with
  | |- context [setAttribute ?w ?o ?i ?a] => destruct (setAttribute w o i a)
  end.

Lemma index_valid_cases (env : IndexEnv) (b : bool) (t : OSToken) :
  valid (fst (index env b t)) = valid t \/
  (valid (fst (index env b t)) = false /\
   (env_refresh env = false \/ of_isValid (tokenObject t) = false)).
Proof.
  unfold index. destruct (reindexCheck b t) as [t1 skip] eqn:Hr.
  destruct (reindexCheck_fields _ _ _ _ Hr) as (_ & Ho & Hv & Hc & _).
  destruct skip; [left; exact Hv|].
  destruct (env_refresh env) eqn:Href; simpl.
  - destruct (of_isValid (tokenObject t1)) eqn:Hm; simpl.
    + left. destruct (fold_addObject_fields env
        (elements (addedFiles b (currentFiles t1) (filterObjects (env_files env)))) t1)
        as (_ & _ & Hv' & _). simpl. rewrite Hv'. exact Hv.
    + right. split; [reflexivity|]. right. rewrite <- Ho. exact Hm.
  - right. split; [reflexivity|]. left. reflexivity.
Qed.

Lemma step_valid_cases (e : StepEnv) (op : Op) (t : OSToken) :
  valid (step e op t) = valid t \/
  (valid (step e op t) = false /\
   (op = OpGetObjects \/ exists b, op = OpIndex b) /\
   (env_refresh (se_index e) = false \/ of_isValid (tokenObject t) = false)).
Proof.
  destruct op; simpl; try (left; reflexivity).
  - destruct (index_valid_cases (se_index e) isFirstTime t) as [H|(H1 & H2)];
      [left; exact H|right; eauto].
  - unfold getObjects; simpl.
    destruct (index_valid_cases (se_index e) false t) as [H|(H1 & H2)];
      [left; exact H|right; eauto].
  - unfold setSOPIN; destruct_setAttribute; left; reflexivity.
  - unfold setUserPIN; destruct_setAttribute; left; reflexivity.
  - unfold setTokenFlags; destruct_setAttribute; left; reflexivity.
  - destruct (sync t); left; reflexivity.
Qed.

(** C6: [valid] is sticky downward: from an invalid token no run of
    operations (methods of the token or actions of other processes) makes
    it valid again, and an operation that turns a valid token invalid is a
    reconciliation ([index] or [getObjects]) whose integrity check failed:
    the directory refresh failed or the metadata object is invalid. *)
Theorem valid_sticky_downward (ops : list (StepEnv * Op)) (t : OSToken)
    (e : StepEnv) (op : Op) :
  (valid t = false -> valid (run ops t) = false) /\
  (valid t = true -> valid (step e op t) = false ->
   (op = OpGetObjects \/ exists b, op = OpIndex b) /\
   (env_refresh (se_index e) = false \/ of_isValid (tokenObject t) = false)).
Proof.
  split.
  - revert t; induction ops as [|[e' op'] ops IH]; intros t Hf; simpl; [exact Hf|].
    apply IH.
    destruct (step_valid_cases e' op' t) as [H|(H & _)]; congruence.
  - intros Ht Hf.
    destruct (step_valid_cases e op t) as [H|(_ & H1 & H2)]; [congruence|].
    split; assumption.
Qed.

Lemma valid_sticky_downward_witness :
  let t := set_valid ex_token0 false in
  let ops := [(ex_step_env, ExtTrigger); (ex_step_env, OpGetObjects);
              (ex_step_env, OpIndex true)] in
  (valid t = false /\ valid (run ops t) = false) /\
  (valid ex_token0 = true /\
   valid (step (mkStepEnv (mkIndexEnv false ex_files (fun _ => true)) true true)
            (OpIndex true) ex_token0) = false /\
   (OpIndex true = OpGetObjects \/ exists b, OpIndex true = OpIndex b) /\
   (env_refresh (mkIndexEnv false ex_files (fun _ => true)) = false \/
    of_isValid (tokenObject ex_token0) = false)).
Proof.
  simpl.
  destruct (valid_sticky_downward
              [(ex_step_env, ExtTrigger); (ex_step_env, OpGetObjects);
               (ex_step_env, OpIndex true)]
              (set_valid ex_token0 false)
              (mkStepEnv (mkIndexEnv false ex_files (fun _ => true)) true true)
              (OpIndex true)) as [H1 _].
  destruct (valid_sticky_downward [] ex_token0
              (mkStepEnv (mkIndexEnv false ex_files (fun _ => true)) true true)
              (OpIndex true)) as [_ H2].
  assert (Hv : valid ex_token0 = true) by (vm_compute; reflexivity).
  assert (Hs : valid (step (mkStepEnv (mkIndexEnv false ex_files (fun _ => true)) true true)
                        (OpIndex true) ex_token0) = false) by (vm_compute; reflexivity).
  split.
  - split; [reflexivity|]. apply H1. reflexivity.
  - split; [exact Hv|]. split; [exact Hs|]. exact (H2 Hv Hs).
Defined.

(** ** C9 *)

Lemma fold_addObject_set_sync (env : IndexEnv) (l : list string) (t : OSToken)
    (s : option IPCSignal) :
  fold_left (addObject env) l (set_sync t s) =
  set_sync (fold_left (addObject env) l t) s.
Proof.
  revert t; induction l as [|n l IH]; intros t; simpl; [reflexivity|].
  rewrite <- IH. reflexivity.
Qed.

Lemma index_first_set_sync (env : IndexEnv) (t : OSToken) (s : option IPCSignal) :
  index env true (set_sync t s) =
  (set_sync (fst (index env true t)) s, snd (index env true t)).
Proof.
  unfold index; cbn [reindexCheck].
  destruct (negb (env_refresh env) || negb (of_isValid (tokenObject t))) eqn:Hc;
    cbn [tokenObject set_sync]; rewrite Hc; [reflexivity|].
  cbn [currentFiles set_sync].
  rewrite fold_addObject_set_sync. reflexivity.
Qed.

(** C9 (counterexample): all four resources are obtained, but the
    directory refresh of the first reconciliation fails, and the
    constructed token is invalid. *)
Lemma constructed_invalid_after_refresh_failure :
  let env := mkCtorEnv true ex_meta (Some (mkIPCSignal false)) true
               (mkIndexEnv false ex_files (fun _ => true)) in
  bool_decide (is_Some (ctor_sync env)) = true /\ ctor_mutex env = true /\
  ctor_dir_valid env = true /\ of_isValid (ctor_tokenObject env) = true /\
  valid (OSToken_new env "/tmp/t") = false.
Proof. vm_compute. repeat split. Qed.

(** C9 (amended): after construction the token is valid iff the signal
    was created, the mutex obtained, the directory and the metadata
    object are valid, and the integrity check of the first-time
    reconciliation (the directory refresh) passes. The construction does
    not poll the signal: the token keeps the signal as created, and its
    state is the same whatever state the signal is in. *)
Theorem OSToken_new_valid (env : CtorEnv) (path : string) :
  valid (OSToken_new env path) =
    bool_decide (is_Some (ctor_sync env)) && ctor_mutex env &&
    ctor_dir_valid env && of_isValid (ctor_tokenObject env) &&
    env_refresh (ctor_index env) /\
  sync (OSToken_new env path) = ctor_sync env /\
  (forall s1 s2 : IPCSignal,
     OSToken_new (ctor_with_sync env (Some s2)) path =
     set_sync (OSToken_new (ctor_with_sync env (Some s1)) path) (Some s2)).
Proof.
  split; [|split].
  - unfold OSToken_new, index; cbn [reindexCheck tokenObject].
    destruct (env_refresh (ctor_index env)) eqn:Hr;
    destruct (of_isValid (ctor_tokenObject env)) eqn:Hm;
    cbn [negb orb fst valid set_valid];
    rewrite ?andb_true_r, ?andb_false_r; try reflexivity.
    cbn [removeObjects valid].
    match goal with
    | |- context [fold_left (addObject ?e) ?l ?t] =>
        destruct (fold_addObject_fields e l t) as (_ & _ & Hv & _)
    end.
    rewrite Hv. reflexivity.
  - unfold OSToken_new, index; cbn [reindexCheck tokenObject].
    destruct (negb (env_refresh (ctor_index env)) || _); [reflexivity|].
    cbn [fst removeObjects sync].
    match goal with
    | |- context [fold_left (addObject ?e) ?l ?t] =>
        destruct (fold_addObject_fields e l t) as (_ & _ & _ & _ & Hs)
    end.
    rewrite Hs. reflexivity.
  - intros s1 s2. unfold OSToken_new at 1.
    cbn [ctor_with_sync ctor_dir_valid ctor_tokenObject ctor_sync ctor_mutex ctor_index].
    rewrite bool_decide_eq_true_2 by (eexists; reflexivity).
    etransitivity; [|exact (f_equal fst (index_first_set_sync (ctor_index env) _ (Some s2)))].
    unfold OSToken_new. cbn [ctor_with_sync ctor_dir_valid ctor_tokenObject ctor_sync ctor_mutex ctor_index].
    rewrite (bool_decide_eq_true_2 (is_Some (Some s1))) by (eexists; reflexivity).
    reflexivity.
Qed.

(** ** Strings *)

Lemma string_app_nil (b : string) : "" ++ b = b.
Proof. reflexivity. Qed.

Lemma string_app_cons (x : ascii) (a b : string) :
  String x a ++ b = String x (a ++ b).
Proof. reflexivity. Qed.

Lemma string_app_assoc (a b c : string) : (a ++ b) ++ c = a ++ (b ++ c).
Proof.
  induction a as [|x a IH]; [reflexivity|].
  rewrite !string_app_cons, IH. reflexivity.
Qed.

Lemma string_length_app (a b : string) :
  String.length (a ++ b) = String.length a + String.length b.
Proof.
  induction a as [|x a IH]; [reflexivity|].
  rewrite string_app_cons. simpl. rewrite IH. reflexivity.
Qed.

Lemma substring_whole (s : string) : String.substring 0 (String.length s) s = s.
Proof. induction s as [|x s IH]; simpl; [reflexivity|]. rewrite IH. reflexivity. Qed.

Lemma substring_app_r (a b : string) :
  String.substring (String.length a) (String.length b) (a ++ b) = b.
Proof.
  induction a as [|x a IH]; [apply substring_whole|].
  rewrite string_app_cons. exact IH.
Qed.

Lemma substring_split (s : string) (n : nat) :
  n <= String.length s ->
  s = String.substring 0 n s ++ substr_from n s.
Proof.
  unfold substr_from. revert n.
  induction s as [|x s IH]; intros n Hn; simpl in *.
  - destruct n; [reflexivity|lia].
  - destruct n as [|n]; simpl.
    + rewrite substring_whole. reflexivity.
    + rewrite string_app_cons, <- IH by lia. reflexivity.
Qed.

Lemma substring_length (s : string) (n : nat) :
  n <= String.length s -> String.length (String.substring 0 n s) = n.
Proof.
  revert n; induction s as [|x s IH]; intros n Hn; simpl in *.
  - destruct n; [reflexivity|lia].
  - destruct n as [|n]; simpl; [reflexivity|]. rewrite IH by lia. reflexivity.
Qed.

Lemma isObjectFileName_spec (s : string) :
  isObjectFileName s = true <-> exists stem, stem <> "" /\ s = stem ++ ".object".
Proof.
  unfold isObjectFileName. rewrite andb_true_iff, Nat.ltb_lt, String.eqb_eq.
  split.
  - intros [Hlen Hsuf].
    exists (String.substring 0 (String.length s - 7) s). split.
    + intros Hnil.
      pose proof (substring_length s (String.length s - 7) ltac:(lia)) as Hl.
      rewrite Hnil in Hl. simpl in Hl. lia.
    + rewrite <- Hsuf. apply substring_split. lia.
  - intros (stem & Hne & ->).
    rewrite string_length_app.
    assert (Hs : String.length stem <> 0) by (destruct stem; simpl; [congruence|lia]).
    split; [simpl; lia|].
    replace (String.length stem + String.length ".object" - 7)
      with (String.length stem) by (simpl; lia).
    unfold substr_from. rewrite string_length_app.
    replace (String.length stem + String.length ".object" - String.length stem)
      with (String.length ".object") by lia.
    apply substring_app_r.
Qed.

Lemma filterObjects_fold_spec (l : list string) (acc : gset string) (f : string) :
  f ∈ fold_left (fun acc f => if isObjectFileName f then {[f]} ∪ acc else acc) l acc
  <-> f ∈ acc \/ (In f l /\ isObjectFileName f = true).
Proof.
  revert acc; induction l as [|x l IH]; intros acc; simpl.
  - split; [left; exact H|intros [H|[[] _]]; exact H].
  - rewrite IH. destruct (isObjectFileName x) eqn:Hx.
    + rewrite elem_of_union, elem_of_singleton. split.
      * intros [[->|H]|[Hin Hf]]; eauto.
      * intros [H|[[->|Hin] Hf]]; eauto.
    + split.
      * intros [H|[Hin Hf]]; eauto.
      * intros [H|[[->|Hin] Hf]]; [eauto|congruence|eauto].
Qed.

Lemma filterObjects_spec (files : list string) (f : string) :
  f ∈ filterObjects files <-> In f files /\ isObjectFileName f = true.
Proof.
  unfold filterObjects. rewrite filterObjects_fold_spec.
  split; [intros [H|H]; [set_solver|exact H]|intros H; right; exact H].
Qed.

(** ** C3 (amended) *)

(** C3 (amended): an entry of the listing is put in [newSet] iff its name
    is a non-empty stem followed by the case-sensitive suffix [.object],
    i.e. it is longer than seven characters and ends in [.object]:
    [x.object] is included; [.object], [object] and [x.objec] are not, nor
    is any name of at most seven characters. *)
Theorem filterObjects_nonempty_stem :
  (forall (files : list string) (f : string),
     f ∈ filterObjects files <->
     In f files /\ exists stem, stem <> "" /\ f = stem ++ ".object") /\
  isObjectFileName "x.object" = true /\
  isObjectFileName ".object" = false /\
  isObjectFileName "object" = false /\
  isObjectFileName "x.objec" = false /\
  (forall s : string, String.length s <= 7 -> isObjectFileName s = false).
Proof.
  split; [|split; [reflexivity|split; [reflexivity|split; [reflexivity|split; [reflexivity|]]]]].
  - intros files f. rewrite filterObjects_spec, isObjectFileName_spec. reflexivity.
  - intros s Hs. unfold isObjectFileName.
    replace ((7 <? String.length s)%nat) with false; [reflexivity|].
    symmetry. apply Nat.ltb_ge. exact Hs.
Qed.

(** ** C10 *)

Lemma basename_aux_slash (s r acc : string) :
  basename_aux (s ++ String "/" r) acc = basename_aux r "".
Proof.
  revert acc; induction s as [|x s IH]; intros acc; [reflexivity|].
  rewrite string_app_cons. simpl.
  destruct (Ascii.eqb x "/"); apply IH.
Qed.

Lemma basename_aux_noslash (r acc : string) :
  has_slash r = false -> basename_aux r acc = acc ++ r.
Proof.
  revert acc; induction r as [|x r IH]; intros acc Hr; simpl in *.
  - induction acc as [|y acc IHa]; [reflexivity|].
    rewrite string_app_cons, <- IHa. reflexivity.
  - apply orb_false_iff in Hr as [Hx Hr]. rewrite Hx.
    rewrite IH by exact Hr. rewrite string_app_assoc. reflexivity.
Qed.

Lemma getFilename_object (tokenPath name : string) (v : bool) (tok : string) :
  has_slash name = false ->
  getFilename (mkHandle (tokenPath ++ "/" ++ name) v tok) = name.
Proof.
  intros Hn. unfold getFilename; cbn [h_path].
  change ("/" ++ name) with (String "/" name).
  rewrite basename_aux_slash, basename_aux_noslash by exact Hn. reflexivity.
Qed.

Lemma fold_addObject_spec (env : IndexEnv) (l : list string) (t : OSToken) :
  let t' := fold_left (addObject env) l t in
  (next_ptr t <= next_ptr t')%positive /\
  objects t ⊆ objects t' /\ allObjects t ⊆ allObjects t' /\
  (forall q, (q < next_ptr t)%positive -> heap t' !! q = heap t !! q) /\
  (forall n, In n l -> exists p, p ∈ objects t' /\ p ∈ allObjects t' /\
     heap t' !! p = Some (mkHandle (tokenPath t ++ "/" ++ n)
                            (env_object_valid env (tokenPath t ++ "/" ++ n))
                            (tokenPath t))).
Proof.
  revert t; induction l as [|n l IH]; intros t; cbn zeta.
  - simpl. split; [lia|]. split; [set_solver|]. split; [set_solver|].
    split; [reflexivity|]. intros ? [].
  - simpl. destruct (IH (addObject env t n)) as (Hp & Ho & Ha & Hh & Hl).
    cbn [addObject next_ptr objects allObjects heap tokenPath] in *.
    split; [lia|]. split; [set_solver|]. split; [set_solver|].
    split.
    + intros q Hq. rewrite Hh by lia. apply lookup_insert_ne. lia.
    + intros m [<-|Hm]; [|exact (Hl m Hm)].
      exists (next_ptr t). split; [set_solver|]. split; [set_solver|].
      rewrite Hh by lia. apply lookup_insert_eq.
Qed.

Lemma added_not_removed (b : bool) (current newSet : gset string) (name : string) :
  name ∈ addedFiles b current newSet -> name ∉ removedFiles b current newSet.
Proof.
  unfold addedFiles, removedFiles. destruct b; simpl; [set_solver|].
  rewrite !elem_of_filter. intros [Hc _] [_ Hc']. contradiction.
Qed.

Lemma added_in_newSet (b : bool) (current newSet : gset string) (name : string) :
  name ∈ addedFiles b current newSet -> name ∈ newSet.
Proof.
  unfold addedFiles. destruct b; simpl; [auto|]. rewrite elem_of_filter. tauto.
Qed.

(** C10: when the integrity check passes, a reconciliation succeeds and,
    for every name of [addedFiles], a fresh handle on
    [tokenPath + "/" + name] is in [objects] and in [allObjects], whatever
    the object file's validity ([env_object_valid], recorded in the
    handle's [h_valid]) is: an unreadable object file neither keeps its
    handle out of the live objects nor makes the reconciliation fail. *)
Theorem index_adds_unchecked_handles (env : IndexEnv) (b : bool) (t t1 : OSToken)
    (Hcheck : reindexCheck b t = (t1, false))
    (Hrefresh : env_refresh env = true)
    (Hmeta : of_isValid (tokenObject t) = true)
    (Hnames : Forall (fun f => has_slash f = false) (env_files env)) :
  snd (index env b t) = true /\
  forall name : string,
    name ∈ addedFiles b (currentFiles t) (filterObjects (env_files env)) ->
    exists p, p ∈ objects (fst (index env b t)) /\
      p ∈ allObjects (fst (index env b t)) /\
      heap (fst (index env b t)) !! p =
        Some (mkHandle (tokenPath t ++ "/" ++ name)
                (env_object_valid env (tokenPath t ++ "/" ++ name))
                (tokenPath t)).
Proof.
  destruct (reindexCheck_fields _ _ _ _ Hcheck) as (Hp & Ho & _ & Hc & _).
  unfold index. rewrite Hcheck, Hrefresh, Ho, Hmeta. cbn [negb orb fst snd].
  split; [reflexivity|].
  intros name Hadd. rewrite <- Hc in Hadd.
  set (added := addedFiles b (currentFiles t1) (filterObjects (env_files env))).
  destruct (fold_addObject_spec env (elements added) t1)
    as (_ & _ & _ & _ & Hl).
  destruct (Hl name) as (p & Hpo & Hpa & Hph);
    [apply list_elem_of_In, elem_of_elements; exact Hadd|].
  rewrite Hp in Hph.
  exists p. cbn [removeObjects objects allObjects heap].
  split; [|split; [exact Hpa|exact Hph]].
  apply elem_of_filter. split; [|exact Hpo].
  unfold keepObject. rewrite Hph. apply bool_decide_eq_true_2.
  rewrite getFilename_object.
  - apply added_not_removed. exact Hadd.
  - apply added_in_newSet, filterObjects_spec in Hadd as [Hin _].
    rewrite Forall_forall in Hnames. apply Hnames, list_elem_of_In, Hin.
Qed.

Lemma index_adds_unchecked_handles_witness :
  let env := mkIndexEnv true ex_files (fun _ => false) in
  reindexCheck true ex_token0 = (ex_token0, false) /\
  env_refresh env = true /\
  of_isValid (tokenObject ex_token0) = true /\
  Forall (fun f => has_slash f = false) (env_files env) /\
  snd (index env true ex_token0) = true /\
  forall name : string,
    name ∈ addedFiles true (currentFiles ex_token0) (filterObjects (env_files env)) ->
    exists p, p ∈ objects (fst (index env true ex_token0)) /\
      p ∈ allObjects (fst (index env true ex_token0)) /\
      heap (fst (index env true ex_token0)) !! p =
        Some (mkHandle (tokenPath ex_token0 ++ "/" ++ name)
                (env_object_valid env (tokenPath ex_token0 ++ "/" ++ name))
                (tokenPath ex_token0)).
Proof.
  cbv zeta.
  assert (H1 : reindexCheck true ex_token0 = (ex_token0, false)) by reflexivity.
  assert (H2 : of_isValid (tokenObject ex_token0) = true) by (vm_compute; reflexivity).
  assert (H3 : Forall (fun f => has_slash f = false)
                 (env_files (mkIndexEnv true ex_files (fun _ => false))))
    by (repeat constructor).
  split; [exact H1|]. split; [reflexivity|]. split; [exact H2|]. split; [exact H3|].
  exact (index_adds_unchecked_handles (mkIndexEnv true ex_files (fun _ => false))
           true ex_token0 ex_token0 H1 eq_refl H2 H3).
Defined.

(** ** C7 *)

(** C7 (counterexample): the first attribute write fails and the removal
    of the metadata file fails too; [createToken] returns [NULL] and the
    token directory, with the metadata file in it, stays in the base
    directory (the removal of the non-empty directory fails as well). *)
Lemma rollback_can_leave_tokenDir :
  let env := mkCreateEnv true true false true true false true ex_ctor_env in
  createToken env (mkDirectory true ∅) "/tmp" "t" [] [] =
    (mkDirectory true {["t/tokenObject"; "t"]}, None).
Proof. vm_compute. reflexivity. Qed.

Lemma string_prefix_iff (s1 s2 : string) :
  String.prefix s1 s2 = true <-> exists r, s2 = s1 ++ r.
Proof.
  revert s2; induction s1 as [|a s1 IH]; intros s2.
  - split; [intros _; exists s2; reflexivity|destruct s2; reflexivity].
  - destruct s2 as [|b s2]; simpl.
    + split; [discriminate|intros [r Hr]; discriminate].
    + destruct (ascii_dec a b) as [->|Hab].
      * rewrite IH. split; intros [r Hr]; exists r;
          [rewrite string_app_cons; congruence
          |rewrite string_app_cons in Hr; congruence].
      * split; [discriminate|intros [r Hr]].
        rewrite string_app_cons in Hr. congruence.
Qed.

Lemma string_app_longer (a b : string) : b <> "" -> a <> a ++ b.
Proof.
  intros Hb Heq. apply (f_equal String.length) in Heq.
  rewrite string_length_app in Heq. destruct b; simpl in *; [congruence|lia].
Qed.

Lemma has_children_false (D : Directory) (name : string) :
  (forall p, p ∈ dir_entries D -> String.prefix (name ++ "/") p = false) ->
  has_children D name = false.
Proof.
  intros Hall. unfold has_children. apply not_true_iff_false.
  intros H. apply existsb_exists in H as (p & Hin & Hp).
  apply list_elem_of_In, elem_of_elements in Hin.
  rewrite (Hall p Hin) in Hp. discriminate.
Qed.

Lemma writeInitialAttributes_ok (env : CreateEnv) (o : ObjectFile)
    (label serial : list Byte.byte) :
  snd (writeInitialAttributes env o label serial) =
  ce_write_label env && ce_write_serial env && ce_write_flags env.
Proof.
  unfold writeInitialAttributes, setAttribute.
  destruct (ce_write_label env), (ce_write_serial env), (ce_write_flags env);
    reflexivity.
Qed.

(** C7 (amended): when the base directory is valid, the token directory
    is created and the token object with it, and one of the three initial
    attribute writes fails, [createToken] returns [NULL]; when both
    rollback removals go through, the base directory is exactly as before:
    neither the token directory nor any file under it is left. *)
Theorem createToken_attribute_failure_rollback (env : CreateEnv)
    (baseDir : Directory) (basePath tokenDir : string)
    (label serial : list Byte.byte)
    (Hvalid : dir_valid baseDir = true)
    (Hmkdir : ce_mkdir_ok env = true)
    (Hfresh : tokenDir ∉ dir_entries baseDir)
    (Hunder : forall p, p ∈ dir_entries baseDir ->
              String.prefix (tokenDir ++ "/") p = false)
    (Hcreate : ce_create_ok env = true)
    (Hwrite : (ce_write_label env && ce_write_serial env && ce_write_flags env) = false) :
  snd (createToken env baseDir basePath tokenDir label serial) = None /\
  (ce_remove_file_ok env = true -> ce_remove_dir_ok env = true ->
   let entries := dir_entries (fst (createToken env baseDir basePath tokenDir label serial)) in
   entries = dir_entries baseDir /\ (tokenDir ∉ entries) /\
   forall p, p ∈ entries -> String.prefix (tokenDir ++ "/") p = false).
Proof.
  assert (Hneq : tokenDir <> tokenDir ++ "/tokenObject")
    by (apply string_app_longer; discriminate).
  assert (Hobj : tokenDir ++ "/tokenObject" ∉ dir_entries baseDir).
  { intros Hin. specialize (Hunder _ Hin).
    assert (String.prefix (tokenDir ++ "/") (tokenDir ++ "/tokenObject") = true)
      as Hp by (apply string_prefix_iff; exists "tokenObject";
                rewrite string_app_assoc; reflexivity).
    congruence. }
  unfold createToken. rewrite Hvalid. cbn [negb].
  unfold dir_mkdir. rewrite Hmkdir, (bool_decide_eq_true_2 _ Hfresh). cbn [andb negb].
  rewrite Hcreate. cbn [negb].
  pose proof (writeInitialAttributes_ok env (mkObjectFile true (fun _ => None)) label serial)
    as Hw.
  destruct (writeInitialAttributes env (mkObjectFile true (fun _ => None)) label serial)
    as [o ok]. cbn [snd] in Hw. rewrite Hw, Hwrite. cbn [negb fst snd].
  split; [reflexivity|].
  intros Hr1 Hr2. cbv zeta. rewrite Hr1, Hr2. cbn [dir_valid dir_entries].
  set (D1 := mkDirectory (dir_valid baseDir)
               ({[tokenDir ++ "/tokenObject"]} ∪ ({[tokenDir]} ∪ dir_entries baseDir))).
  assert (Hc1 : has_children D1 (tokenDir ++ "/tokenObject") = false).
  { apply has_children_false. intros p Hp. apply not_true_iff_false.
    intros Hpre. apply string_prefix_iff in Hpre as [r ->].
    cbn [dir_entries D1] in Hp. apply elem_of_union in Hp as [Hp|Hp];
      [|apply elem_of_union in Hp as [Hp|Hp]].
    - apply elem_of_singleton in Hp. symmetry in Hp.
      rewrite string_app_assoc in Hp. revert Hp. apply string_app_longer. discriminate.
    - apply elem_of_singleton in Hp. symmetry in Hp.
      rewrite !string_app_assoc in Hp. revert Hp. apply string_app_longer. discriminate.
    - specialize (Hunder _ Hp).
      assert (String.prefix (tokenDir ++ "/")
                (((tokenDir ++ "/tokenObject") ++ "/") ++ r) = true) as Hx.
      { apply string_prefix_iff. exists ("tokenObject" ++ "/" ++ r).
        rewrite !string_app_assoc. reflexivity. }
      congruence. }
  set (D2 := mkDirectory (dir_valid D1) (dir_entries D1 ∖ {[tokenDir ++ "/tokenObject"]})).
  assert (E1 : dir_remove true D1 (tokenDir ++ "/tokenObject") = (D2, true)).
  { unfold dir_remove. rewrite Hc1.
    rewrite (bool_decide_eq_true_2 (tokenDir ++ "/tokenObject" ∈ dir_entries D1))
      by (cbn [dir_entries D1]; set_solver).
    reflexivity. }
  assert (Hc2 : has_children D2 tokenDir = false).
  { apply has_children_false. intros p Hp. apply not_true_iff_false.
    intros Hpre. cbn [D2 D1 dir_entries] in Hp.
    apply elem_of_difference in Hp as [Hp Hnot].
    apply elem_of_union in Hp as [Hp|Hp]; [set_solver|].
    apply elem_of_union in Hp as [Hp|Hp].
    - apply elem_of_singleton in Hp as ->.
      apply string_prefix_iff in Hpre as [r Hr].
      rewrite string_app_assoc in Hr. revert Hr. apply string_app_longer. discriminate.
    - rewrite (Hunder _ Hp) in Hpre. discriminate. }
  assert (E2 : dir_remove true D2 tokenDir =
               (mkDirectory (dir_valid D2) (dir_entries D2 ∖ {[tokenDir]}), true)).
  { unfold dir_remove. rewrite Hc2.
    rewrite (bool_decide_eq_true_2 (tokenDir ∈ dir_entries D2))
      by (cbn [dir_entries D2 D1]; set_solver).
    reflexivity. }
  rewrite E1. cbn [fst]. rewrite E2. cbn [fst dir_entries D2 D1].
  assert (Heq : ({[tokenDir ++ "/tokenObject"]} ∪ ({[tokenDir]} ∪ dir_entries baseDir))
                  ∖ {[tokenDir ++ "/tokenObject"]} ∖ {[tokenDir]} = dir_entries baseDir)
    by (apply set_eq; intros x; set_solver).
  rewrite Heq. split; [reflexivity|]. split; [exact Hfresh|exact Hunder].
Qed.

Lemma createToken_attribute_failure_rollback_witness :
  let env := mkCreateEnv true true false true true true true ex_ctor_env in
  let base := mkDirectory true ∅ in
  dir_valid base = true /\ ce_mkdir_ok env = true /\
  ("t" ∉ dir_entries base) /\
  (forall p, p ∈ dir_entries base -> String.prefix ("t" ++ "/") p = false) /\
  ce_create_ok env = true /\
  (ce_write_label env && ce_write_serial env && ce_write_flags env) = false /\
  snd (createToken env base "/tmp" "t" [] []) = None /\
  (ce_remove_file_ok env = true -> ce_remove_dir_ok env = true ->
   let entries := dir_entries (fst (createToken env base "/tmp" "t" [] [])) in
   entries = dir_entries base /\ ("t" ∉ entries) /\
   forall p, p ∈ entries -> String.prefix ("t" ++ "/") p = false).
Proof.
  cbv zeta.
  assert (Hfresh : "t" ∉ dir_entries (mkDirectory true ∅)) by (cbn; set_solver).
  assert (Hunder : forall p, p ∈ dir_entries (mkDirectory true ∅) ->
                   String.prefix ("t" ++ "/") p = false) by (cbn; set_solver).
  split; [reflexivity|]. split; [reflexivity|]. split; [exact Hfresh|].
  split; [exact Hunder|]. split; [reflexivity|]. split; [reflexivity|].
  exact (createToken_attribute_failure_rollback
           (mkCreateEnv true true false true true true true ex_ctor_env)
           (mkDirectory true ∅) "/tmp" "t" [] []
           eq_refl eq_refl Hfresh Hunder eq_refl eq_refl).
Defined.

(* ================================================================== *)
(** * Further properties of the token *)

(** ** PIN and flag accessors *)

Lemma setAttribute_ok_lookup (o : ObjectFile) (id j : AttrId) (a : OSAttribute) :
  getAttribute (fst (setAttribute true o id a)) j =
  if decide (j = id) then Some a else getAttribute o j.
Proof. reflexivity. Qed.

Lemma setAttribute_valid (ok : bool) (o : ObjectFile) (id : AttrId) (a : OSAttribute) :
  of_isValid (fst (setAttribute ok o id a)) = of_isValid o.
Proof. destruct ok; reflexivity. Qed.

Lemma setAttribute_other (ok : bool) (o : ObjectFile) (id j : AttrId) (a : OSAttribute) :
  j <> id -> getAttribute (fst (setAttribute ok o id a)) j = getAttribute o j.
Proof.
  intros Hne. destruct ok; [|reflexivity].
  rewrite setAttribute_ok_lookup, decide_False by exact Hne. reflexivity.
Qed.


Lemma setUserPIN_tokenObject (ok : bool) (t : OSToken) (blob : list Byte.byte) :
  tokenObject (fst (setUserPIN ok t blob)) =
  fst (setAttribute ok (tokenObject t) CKA_OS_USERPIN (AttrBytes blob)).
Proof. unfold setUserPIN. destruct_setAttribute. reflexivity. Qed.

Lemma setTokenFlags_tokenObject (ok : bool) (t : OSToken) (f : Z) :
  tokenObject (fst (setTokenFlags ok t f)) =
  fst (setAttribute ok (tokenObject t) CKA_OS_TOKENFLAGS (AttrULong f)).
Proof. unfold setTokenFlags. destruct_setAttribute. reflexivity. Qed.

Lemma setUserPIN_result (ok : bool) (t : OSToken) (blob : list Byte.byte) :
  snd (setUserPIN ok t blob) = ok.
Proof. unfold setUserPIN, setAttribute. destruct ok; reflexivity. Qed.

(** The getters of the token object fail exactly when the token object is
    invalid or the attribute is absent. *)
Theorem getters_fail_iff (t : OSToken) :
  (getSOPIN t = None <->
     of_isValid (tokenObject t) = false \/ getAttribute (tokenObject t) CKA_OS_SOPIN = None) /\
  (getUserPIN t = None <->
     of_isValid (tokenObject t) = false \/ getAttribute (tokenObject t) CKA_OS_USERPIN = None) /\
  (getTokenFlags t = None <->
     of_isValid (tokenObject t) = false \/ getAttribute (tokenObject t) CKA_OS_TOKENFLAGS = None).
Proof.
  unfold getSOPIN, getUserPIN, getTokenFlags.
  destruct (of_isValid (tokenObject t)); cbn [negb].
  - repeat split.
    + destruct (getAttribute _ CKA_OS_SOPIN); [discriminate|auto].
    + intros [H|H]; [discriminate|rewrite H; reflexivity].
    + destruct (getAttribute _ CKA_OS_USERPIN); [discriminate|auto].
    + intros [H|H]; [discriminate|rewrite H; reflexivity].
    + destruct (getAttribute _ CKA_OS_TOKENFLAGS);
        [destruct (attributeExists _ _); discriminate|auto].
    + intros [H|H]; [discriminate|rewrite H; reflexivity].
  - repeat split; auto.
Qed.

(** A successful [setUserPIN] on a valid token object reports success and
    [getUserPIN] then returns the blob written. *)
Theorem setUserPIN_getUserPIN (t : OSToken) (blob : list Byte.byte)
    (Hvalid : of_isValid (tokenObject t) = true) :
  snd (setUserPIN true t blob) = true /\
  getUserPIN (fst (setUserPIN true t blob)) = Some blob.
Proof.
  split; [apply setUserPIN_result|].
  unfold getUserPIN. rewrite setUserPIN_tokenObject.
  rewrite setAttribute_valid, Hvalid, setAttribute_ok_lookup, decide_True by reflexivity.
  reflexivity.
Qed.



(** After a successful [setUserPIN], [getTokenFlags] reports the flags it
    reported before with [CKF_USER_PIN_INITIALIZED] added. *)
Theorem setUserPIN_sets_flag (t : OSToken) (blob : list Byte.byte) (f : Z)
    (Hflags : getTokenFlags t = Some f) :
  getTokenFlags (fst (setUserPIN true t blob)) = Some (Z.lor f CKF_USER_PIN_INITIALIZED).
Proof.
  revert Hflags. unfold getTokenFlags, attributeExists.
  rewrite setUserPIN_tokenObject, setAttribute_valid.
  change (of_attrs (fst (setAttribute true (tokenObject t) CKA_OS_USERPIN (AttrBytes blob)))
            CKA_OS_USERPIN)
    with (getAttribute (fst (setAttribute true (tokenObject t) CKA_OS_USERPIN (AttrBytes blob)))
            CKA_OS_USERPIN).
  rewrite (setAttribute_ok_lookup _ _ CKA_OS_USERPIN), decide_True by reflexivity.
  rewrite setAttribute_other by discriminate.
  destruct (of_isValid (tokenObject t)); cbn [negb]; [|discriminate].
  destruct (getAttribute (tokenObject t) CKA_OS_TOKENFLAGS) as [a|]; [|discriminate].
  destruct (of_attrs (tokenObject t) CKA_OS_USERPIN); intros [= <-]; f_equal.
  rewrite <- Z.lor_assoc, Z.lor_diag. reflexivity.
Qed.

Lemma setUserPIN_sets_flag_witness :
  let t := fst (setTokenFlags true ex_token0 initialFlags) in
  getTokenFlags t = Some initialFlags /\
  getTokenFlags (fst (setUserPIN true t [Byte.x30])) =
    Some (Z.lor initialFlags CKF_USER_PIN_INITIALIZED).
Proof.
  cbv zeta.
  assert (H : getTokenFlags (fst (setTokenFlags true ex_token0 initialFlags)) =
              Some initialFlags) by (vm_compute; reflexivity).
  split; [exact H|]. exact (setUserPIN_sets_flag _ [Byte.x30] initialFlags H).
Defined.

(** A successful [setTokenFlags] on a valid token object stores the value
    verbatim: [getTokenFlags] then returns it, with
    [CKF_USER_PIN_INITIALIZED] added exactly when [getUserPIN] succeeds. *)
Theorem setTokenFlags_getTokenFlags (t : OSToken) (f : Z)
    (Hvalid : of_isValid (tokenObject t) = true) :
  snd (setTokenFlags true t f) = true /\
  getTokenFlags (fst (setTokenFlags true t f)) =
    Some (if bool_decide (is_Some (getUserPIN t))
          then Z.lor f CKF_USER_PIN_INITIALIZED else f).
Proof.
  split; [reflexivity|].
  unfold getTokenFlags, getUserPIN, attributeExists.
  rewrite setTokenFlags_tokenObject, setAttribute_valid, Hvalid. cbn [negb].
  rewrite setAttribute_ok_lookup, decide_True by reflexivity.
  change (of_attrs (fst (setAttribute true (tokenObject t) CKA_OS_TOKENFLAGS (AttrULong f)))
            CKA_OS_USERPIN)
    with (getAttribute (fst (setAttribute true (tokenObject t) CKA_OS_TOKENFLAGS (AttrULong f)))
            CKA_OS_USERPIN).
  rewrite setAttribute_other by discriminate.
  unfold getAttribute. cbn [getUnsignedLongValue].
  destruct (of_attrs (tokenObject t) CKA_OS_USERPIN).
  - rewrite bool_decide_eq_true_2 by (eexists; reflexivity). reflexivity.
  - rewrite bool_decide_eq_false_2 by (intros [? Hx]; discriminate). reflexivity.
Qed.

Lemma setTokenFlags_getTokenFlags_witness :
  of_isValid (tokenObject ex_token0) = true /\
  snd (setTokenFlags true ex_token0 initialFlags) = true /\
  getTokenFlags (fst (setTokenFlags true ex_token0 initialFlags)) =
    Some (if bool_decide (is_Some (getUserPIN ex_token0))
          then Z.lor initialFlags CKF_USER_PIN_INITIALIZED else initialFlags).
Proof.
  assert (H : of_isValid (tokenObject ex_token0) = true) by (vm_compute; reflexivity).
  split; [exact H|]. exact (setTokenFlags_getTokenFlags ex_token0 initialFlags H).
Defined.

Lemma setUserPIN_getUserPIN_witness :
  of_isValid (tokenObject ex_token0) = true /\
  snd (setUserPIN true ex_token0 [Byte.x31]) = true /\
  getUserPIN (fst (setUserPIN true ex_token0 [Byte.x31])) = Some [Byte.x31].
Proof.
  assert (H : of_isValid (tokenObject ex_token0) = true) by (vm_compute; reflexivity).
  split; [exact H|]. exact (setUserPIN_getUserPIN ex_token0 [Byte.x31] H).
Defined.


(** ** Reconciliation *)

(** When the integrity check of a reconciliation fails (directory refresh
    or token object), [index] returns [false], marks the token invalid and
    leaves its objects, its handles and its known file names as they
    were. *)
Theorem index_integrity_failure (env : IndexEnv) (b : bool) (t t1 : OSToken)
    (Hcheck : reindexCheck b t = (t1, false))
    (Hfail : env_refresh env = false \/ of_isValid (tokenObject t) = false) :
  snd (index env b t) = false /\ valid (fst (index env b t)) = false /\
  objects (fst (index env b t)) = objects t /\
  allObjects (fst (index env b t)) = allObjects t /\
  heap (fst (index env b t)) = heap t /\
  currentFiles (fst (index env b t)) = currentFiles t.
Proof.
  destruct (reindexCheck_fields _ _ _ _ Hcheck) as (_ & Ho & _ & Hc & Hob & Ha & Hh & _).
  unfold index. rewrite Hcheck, Ho.
  replace (negb (env_refresh env) || negb (of_isValid (tokenObject t))) with true
    by (destruct Hfail as [H|H]; rewrite H; [reflexivity|symmetry; apply orb_true_r]).
  cbn [fst snd set_valid valid objects allObjects heap currentFiles].
  repeat split; assumption.
Qed.

Lemma index_integrity_failure_witness :
  let env := mkIndexEnv false ex_files (fun _ => true) in
  reindexCheck true ex_token0 = (ex_token0, false) /\
  (env_refresh env = false \/ of_isValid (tokenObject ex_token0) = false) /\
  snd (index env true ex_token0) = false /\ valid (fst (index env true ex_token0)) = false /\
  objects (fst (index env true ex_token0)) = objects ex_token0 /\
  allObjects (fst (index env true ex_token0)) = allObjects ex_token0 /\
  heap (fst (index env true ex_token0)) = heap ex_token0 /\
  currentFiles (fst (index env true ex_token0)) = currentFiles ex_token0.
Proof.
  cbv zeta.
  assert (H1 : reindexCheck true ex_token0 = (ex_token0, false)) by reflexivity.
  assert (H2 : env_refresh (mkIndexEnv false ex_files (fun _ => true)) = false \/
               of_isValid (tokenObject ex_token0) = false) by (left; reflexivity).
  split; [exact H1|]. split; [exact H2|].
  exact (index_integrity_failure _ true ex_token0 ex_token0 H1 H2).
Defined.

Lemma set_sync_same (t : OSToken) (s : option IPCSignal) :
  sync t = s -> set_sync t s = t.
Proof. destruct t; cbn; intros ->; reflexivity. Qed.

Lemma index_poll_state (env : IndexEnv) (t : OSToken) :
  valid (fst (index env false t)) = false \/
  sync (fst (index env false t)) = None \/
  sync (fst (index env false t)) = Some (mkIPCSignal false).
Proof.
  unfold index, reindexCheck. destruct (valid t) eqn:Hv; cbn [negb].
  - destruct (sync t) as [s|] eqn:Hs; cbn [wasTriggered].
    + destruct (sig_triggered s); cbn [negb].
      * destruct (negb (env_refresh env) || _); [left; reflexivity|].
        right; right. cbn [fst removeObjects sync].
        match goal with
        | |- context [fold_left (addObject ?e) ?l ?t] =>
            destruct (fold_addObject_fields e l t) as (_ & _ & _ & _ & Hsy)
        end.
        rewrite Hsy. reflexivity.
      * right; right. reflexivity.
    + right; left. exact Hs.
  - left. exact Hv.
Qed.

(** [getObjects] is idempotent: a second call with no trigger of the
    change signal in between does not reconcile again, leaves the token as
    the first call left it and returns the same set of handles. *)
Theorem getObjects_idempotent (env1 env2 : IndexEnv) (t : OSToken) :
  getObjects env2 (fst (getObjects env1 t)) =
  (fst (getObjects env1 t), snd (getObjects env1 t)).
Proof.
  unfold getObjects at 2 3. cbn [fst snd].
  set (t1 := fst (index env1 false t)).
  assert (Hnoop : index env2 false t1 = (t1, true)).
  { destruct (index_poll_state env1 t) as [H|[H|H]]; fold t1 in H;
      unfold index, reindexCheck.
    - rewrite H. reflexivity.
    - destruct (valid t1); [|reflexivity]. cbn [negb]. rewrite H. reflexivity.
    - destruct (valid t1); [|reflexivity]. cbn [negb]. rewrite H. cbn.
      rewrite set_sync_same by exact H. reflexivity. }
  unfold getObjects. rewrite Hnoop. reflexivity.
Qed.

(** ** Handle bookkeeping *)

Lemma token_wf_fields (t t' : OSToken) :
  objects t' = objects t -> allObjects t' = allObjects t ->
  heap t' = heap t -> next_ptr t' = next_ptr t ->
  token_wf t -> token_wf t'.
Proof. unfold token_wf. intros -> -> -> ->. exact id. Qed.

Lemma addObject_wf (env : IndexEnv) (t : OSToken) (n : string) :
  token_wf t -> token_wf (addObject env t n).
Proof.
  intros (Hsub & Hall & Hbnd). unfold token_wf, addObject.
  cbn [objects allObjects heap next_ptr].
  split; [set_solver|]. split.
  - intros q Hq. destruct (decide (q = next_ptr t)) as [->|Hne].
    + rewrite lookup_insert_eq. eexists; reflexivity.
    + rewrite lookup_insert_ne by congruence. apply Hall. set_solver.
  - intros q Hq. destruct (decide (q = next_ptr t)) as [->|Hne]; [lia|].
    rewrite lookup_insert_ne in Hq by congruence. specialize (Hbnd q Hq). lia.
Qed.

Lemma fold_addObject_wf (env : IndexEnv) (l : list string) (t : OSToken) :
  token_wf t -> token_wf (fold_left (addObject env) l t).
Proof.
  revert t; induction l as [|n l IH]; intros t Ht; simpl; [exact Ht|].
  apply IH, addObject_wf, Ht.
Qed.

Lemma removeObjects_wf (t : OSToken) (r : gset string) :
  token_wf t -> token_wf (removeObjects t r).
Proof.
  intros (Hsub & Hall & Hbnd). unfold removeObjects, token_wf. cbn.
  split; [|split; assumption].
  intros p Hp. apply elem_of_filter in Hp as [_ Hp]. apply Hsub, Hp.
Qed.

Lemma index_wf (env : IndexEnv) (b : bool) (t : OSToken) :
  token_wf t -> token_wf (fst (index env b t)).
Proof.
  intros Ht. unfold index. destruct (reindexCheck b t) as [t1 skip] eqn:Hr.
  destruct (reindexCheck_fields _ _ _ _ Hr) as (_ & _ & _ & _ & Hob & Ha & Hh & Hn & _).
  assert (Ht1 : token_wf t1) by (apply (token_wf_fields t); assumption).
  destruct skip; [exact Ht1|].
  destruct (negb (env_refresh env) || negb (of_isValid (tokenObject t1))).
  - apply (token_wf_fields t1); try reflexivity. exact Ht1.
  - apply removeObjects_wf, fold_addObject_wf, Ht1.
Qed.

Lemma index_frame (env : IndexEnv) (b : bool) (t : OSToken) :
  (next_ptr t <= next_ptr (fst (index env b t)))%positive /\
  allObjects t ⊆ allObjects (fst (index env b t)) /\
  (forall q, (q < next_ptr t)%positive -> heap (fst (index env b t)) !! q = heap t !! q).
Proof.
  unfold index. destruct (reindexCheck b t) as [t1 skip] eqn:Hr.
  destruct (reindexCheck_fields _ _ _ _ Hr) as (_ & _ & _ & _ & _ & Ha & Hh & Hn & _).
  rewrite <- Ha, <- Hh, <- Hn.
  destruct skip; [cbn [fst]; split; [lia|split; [set_solver|intros; reflexivity]]|].
  destruct (negb (env_refresh env) || negb (of_isValid (tokenObject t1))).
  - cbn [fst set_valid next_ptr allObjects heap].
    split; [lia|split; [set_solver|intros; reflexivity]].
  - cbn [fst removeObjects next_ptr allObjects heap].
    destruct (fold_addObject_spec env
      (elements (addedFiles b (currentFiles t1) (filterObjects (env_files env)))) t1)
      as (Hp & _ & Ha' & Hh' & _).
    split; [exact Hp|split; [exact Ha'|exact Hh']].
Qed.

Lemma frame_same (t t' : OSToken) :
  objects t' = objects t -> allObjects t' = allObjects t ->
  heap t' = heap t -> next_ptr t' = next_ptr t -> currentFiles t' = currentFiles t ->
  (token_wf t -> token_wf t') /\
  (next_ptr t <= next_ptr t')%positive /\
  allObjects t ⊆ allObjects t' /\
  (forall q, (q < next_ptr t)%positive -> heap t' !! q = heap t !! q) /\
  currentFiles t' = currentFiles t.
Proof.
  intros Ho Ha Hh Hn Hc. split; [apply token_wf_fields; assumption|].
  rewrite Ha, Hh, Hn, Hc. split; [lia|]. split; [set_solver|]. split; [auto|reflexivity].
Qed.

Lemma step_frame (e : StepEnv) (op : Op) (t : OSToken) :
  (token_wf t -> token_wf (step e op t)) /\
  (next_ptr t <= next_ptr (step e op t))%positive /\
  allObjects t ⊆ allObjects (step e op t) /\
  (forall q, (q < next_ptr t)%positive -> heap (step e op t) !! q = heap t !! q) /\
  currentFiles (step e op t) = currentFiles t.
Proof.
  destruct op; cbn [step].
  - destruct (index_frame (se_index e) isFirstTime t) as (A & B & C).
    split; [apply index_wf|]. repeat split; [exact A|exact B|exact C|].
    apply index_currentFiles.
  - unfold getObjects; cbn [fst].
    destruct (index_frame (se_index e) false t) as (A & B & C).
    split; [apply index_wf|]. repeat split; [exact A|exact B|exact C|].
    apply index_currentFiles.
  - unfold setSOPIN; destruct_setAttribute; apply frame_same; reflexivity.
  - apply frame_same; reflexivity.
  - unfold setUserPIN; destruct_setAttribute; apply frame_same; reflexivity.
  - apply frame_same; reflexivity.
  - apply frame_same; reflexivity.
  - unfold setTokenFlags; destruct_setAttribute; apply frame_same; reflexivity.
  - apply frame_same; reflexivity.
  - destruct (sync t); apply frame_same; reflexivity.
  - apply frame_same; reflexivity.
Qed.

Lemma run_frame (ops : list (StepEnv * Op)) (t : OSToken) :
  (token_wf t -> token_wf (run ops t)) /\
  (next_ptr t <= next_ptr (run ops t))%positive /\
  allObjects t ⊆ allObjects (run ops t) /\
  (forall q, (q < next_ptr t)%positive -> heap (run ops t) !! q = heap t !! q) /\
  currentFiles (run ops t) = currentFiles t.
Proof.
  revert t; induction ops as [|[e op] ops IH]; intros t; cbn [run].
  - apply frame_same; reflexivity.
  - destruct (step_frame e op t) as (W1 & N1 & A1 & H1 & C1).
    destruct (IH (step e op t)) as (W2 & N2 & A2 & H2 & C2).
    split; [tauto|]. split; [lia|]. split; [set_solver|]. split.
    + intros q Hq. rewrite H2 by lia. apply H1, Hq.
    + congruence.
Qed.

Lemma OSToken_new_wf (env : CtorEnv) (path : string) :
  token_wf (OSToken_new env path).
Proof.
  unfold OSToken_new. apply index_wf.
  unfold token_wf; cbn [objects allObjects heap next_ptr].
  split; [set_solver|]. split; [set_solver|].
  intros p [h Hp]. rewrite lookup_empty in Hp. discriminate.
Qed.

Lemma OSToken_new_currentFiles (env : CtorEnv) (path : string) :
  currentFiles (OSToken_new env path) = ∅.
Proof. unfold OSToken_new. rewrite index_currentFiles. reflexivity. Qed.

(** In every state reached from a constructed token by any run of
    operations, the live objects are among all objects ever created, each
    created object is allocated, and allocated addresses are below the next
    fresh one ([token_wf]). *)
Theorem reachable_token_wf (env : CtorEnv) (path : string) (ops : list (StepEnv * Op)) :
  token_wf (run ops (OSToken_new env path)).
Proof. apply (run_frame ops), OSToken_new_wf. Qed.

(** Handles are durable: a handle allocated in a state reached from a
    constructed token keeps its address and its backing file through any
    later run of operations, and stays in [allObjects] (it is never freed
    while the token lives). *)
Theorem handles_durable (env : CtorEnv) (path : string)
    (ops1 ops2 : list (StepEnv * Op)) (p : positive) (h : Handle)
    (Hp : heap (run ops1 (OSToken_new env path)) !! p = Some h) :
  heap (run ops2 (run ops1 (OSToken_new env path))) !! p = Some h /\
  allObjects (run ops1 (OSToken_new env path)) ⊆
    allObjects (run ops2 (run ops1 (OSToken_new env path))).
Proof.
  pose proof (reachable_token_wf env path ops1) as (_ & _ & Hbnd).
  destruct (run_frame ops2 (run ops1 (OSToken_new env path))) as (_ & _ & A & H & _).
  split; [|exact A].
  rewrite H; [exact Hp|]. apply Hbnd. rewrite Hp. eexists; reflexivity.
Qed.

Lemma handles_durable_witness :
  heap ex_token0 !! 1%positive = Some (mkHandle "/tmp/t/a.object" true "/tmp/t") /\
  heap (run [(ex_step_env, ExtTrigger); (ex_step_env, OpGetObjects)] (run [] ex_token0))
    !! 1%positive = Some (mkHandle "/tmp/t/a.object" true "/tmp/t") /\
  allObjects (run [] ex_token0) ⊆
    allObjects (run [(ex_step_env, ExtTrigger); (ex_step_env, OpGetObjects)] (run [] ex_token0)).
Proof.
  assert (H : heap (run [] (OSToken_new ex_ctor_env "/tmp/t")) !! 1%positive =
              Some (mkHandle "/tmp/t/a.object" true "/tmp/t")) by (vm_compute; reflexivity).
  split; [exact H|].
  exact (handles_durable ex_ctor_env "/tmp/t" []
           [(ex_step_env, ExtTrigger); (ex_step_env, OpGetObjects)] 1%positive _ H).
Defined.

Lemma index_objects_grow (env : IndexEnv) (b : bool) (t : OSToken) :
  currentFiles t = ∅ -> objects t ⊆ objects (fst (index env b t)).
Proof.
  intros Hc. unfold index. destruct (reindexCheck b t) as [t1 skip] eqn:Hr.
  destruct (reindexCheck_fields _ _ _ _ Hr) as (_ & _ & _ & Hc1 & Hob & _).
  rewrite <- Hob. destruct skip; [cbn [fst]; set_solver|].
  destruct (negb (env_refresh env) || negb (of_isValid (tokenObject t1)));
    [cbn [fst set_valid objects]; set_solver|].
  rewrite Hc1, Hc. cbn [fst].
  assert (Hr0 : removedFiles b ∅ (filterObjects (env_files env)) = ∅)
    by (unfold removedFiles; destruct b; cbn [negb]; [reflexivity|set_solver]).
  rewrite Hr0.
  destruct (fold_addObject_spec env
    (elements (addedFiles b ∅ (filterObjects (env_files env)))) t1) as (_ & Ho & _).
  intros p Hp. unfold removeObjects; cbn [objects].
  apply elem_of_filter. split; [|apply Ho, Hp].
  unfold keepObject. destruct (_ !! p); [|reflexivity].
  apply bool_decide_eq_true_2. set_solver.
Qed.

Lemma run_objects_grow (ops : list (StepEnv * Op)) (t : OSToken) :
  currentFiles t = ∅ -> objects t ⊆ objects (run ops t).
Proof.
  revert t; induction ops as [|[e op] ops IH]; intros t Hc; cbn [run]; [set_solver|].
  destruct (step_frame e op t) as (_ & _ & _ & _ & Hc').
  transitivity (objects (step e op t)); [|apply IH; congruence].
  destruct op; cbn [step].
  - apply index_objects_grow, Hc.
  - unfold getObjects; cbn [fst]. apply index_objects_grow, Hc.
  - unfold setSOPIN; destruct_setAttribute; reflexivity.
  - reflexivity.
  - unfold setUserPIN; destruct_setAttribute; reflexivity.
  - reflexivity.
  - reflexivity.
  - unfold setTokenFlags; destruct_setAttribute; reflexivity.
  - reflexivity.
  - destruct (sync t); reflexivity.
  - reflexivity.
Qed.

(** A constructed token never drops a live handle: [currentFiles] stays
    empty, so [removedFiles] is always empty and every handle in [objects]
    (every handle [getObjects] has returned) stays in [objects] through any
    later run of operations, even after its file is deleted. *)
Theorem live_handles_never_dropped (env : CtorEnv) (path : string)
    (ops1 ops2 : list (StepEnv * Op)) :
  currentFiles (run ops1 (OSToken_new env path)) = ∅ /\
  objects (run ops1 (OSToken_new env path)) ⊆
    objects (run ops2 (run ops1 (OSToken_new env path))).
Proof.
  assert (Hc : currentFiles (run ops1 (OSToken_new env path)) = ∅).
  { destruct (run_frame ops1 (OSToken_new env path)) as (_ & _ & _ & _ & C).
    rewrite C. apply OSToken_new_currentFiles. }
  split; [exact Hc|]. apply run_objects_grow, Hc.
Qed.

(** ** Token creation *)

(** [createToken] returns a token exactly when the base directory is valid,
    [mkdir] creates the fresh token directory, the token object is created
    and all three initial attribute writes succeed; the token it returns is
    the one constructed on [basePath/tokenDir], and the base directory then
    holds the token directory and its token object besides what it held. *)
Theorem createToken_success (env : CreateEnv) (baseDir : Directory)
    (basePath tokenDir : string) (label serial : list Byte.byte) :
  (is_Some (snd (createToken env baseDir basePath tokenDir label serial)) <->
     dir_valid baseDir = true /\ ce_mkdir_ok env = true /\
     (tokenDir ∉ dir_entries baseDir) /\ ce_create_ok env = true /\
     (ce_write_label env && ce_write_serial env && ce_write_flags env) = true) /\
  match createToken env baseDir basePath tokenDir label serial with
  | (d, Some tok) =>
      tok = OSToken_new (ce_token env) (basePath ++ "/" ++ tokenDir) /\
      dir_valid d = dir_valid baseDir /\
      dir_entries d = {[tokenDir ++ "/tokenObject"]} ∪ ({[tokenDir]} ∪ dir_entries baseDir)
  | (_, None) => True
  end.
Proof.
  unfold createToken.
  destruct (dir_valid baseDir) eqn:Hv; cbn [negb];
    [|split; [split; [intros [? H]; discriminate|intros (H & _); discriminate]|exact I]].
  unfold dir_mkdir.
  destruct (ce_mkdir_ok env) eqn:Hm; cbn [andb];
    [|cbn [negb]; split; [split; [intros [? H]; discriminate|intros (_ & H & _); discriminate]|exact I]].
  destruct (bool_decide (tokenDir ∉ dir_entries baseDir)) eqn:Hf; cbn [negb];
    [|apply bool_decide_eq_false in Hf;
      split; [split; [intros [? H]; discriminate|intros (_ & _ & H & _); contradiction]|exact I]].
  destruct (ce_create_ok env) eqn:Hc; cbn [negb];
    [|split; [split; [intros [? H]; discriminate|intros (_ & _ & _ & H & _); discriminate]|exact I]].
  pose proof (writeInitialAttributes_ok env (mkObjectFile true (fun _ => None)) label serial)
    as Hw.
  destruct (writeInitialAttributes env (mkObjectFile true (fun _ => None)) label serial)
    as [o ok]. cbn [snd] in Hw. rewrite Hw.
  apply bool_decide_eq_true in Hf.
  destruct (ce_write_label env && ce_write_serial env && ce_write_flags env) eqn:Hw';
    cbn [negb].
  - split; [split; [intros _; tauto|intros _; eexists; reflexivity]|].
    split; [reflexivity|]. cbn [dir_valid dir_entries]. split; [congruence|reflexivity].
  - split; [split; [intros [? H]; discriminate|intros (_ & _ & _ & _ & H); discriminate]|exact I].
Qed.

(** When the base directory is invalid, or [mkdir] of the token directory
    fails (also because the entry already exists), [createToken] returns
    [NULL] before touching anything: the base directory is unchanged. *)
Theorem createToken_early_failure (env : CreateEnv) (baseDir : Directory)
    (basePath tokenDir : string) (label serial : list Byte.byte)
    (Hearly : dir_valid baseDir = false \/ ce_mkdir_ok env = false \/
              tokenDir ∈ dir_entries baseDir) :
  createToken env baseDir basePath tokenDir label serial = (baseDir, None).
Proof.
  unfold createToken.
  destruct (dir_valid baseDir) eqn:Hv; cbn [negb]; [|reflexivity].
  unfold dir_mkdir.
  destruct Hearly as [H|[H|H]]; [discriminate| |].
  - rewrite H. reflexivity.
  - rewrite (bool_decide_eq_false_2 (tokenDir ∉ dir_entries baseDir))
      by (intros Hn; contradiction). rewrite andb_false_r. reflexivity.
Qed.

Lemma createToken_early_failure_witness :
  (dir_valid (mkDirectory true {["t"]}) = false \/
   ce_mkdir_ok (mkCreateEnv true true true true true true true ex_ctor_env) = false \/
   "t" ∈ dir_entries (mkDirectory true {["t"]})) /\
  createToken (mkCreateEnv true true true true true true true ex_ctor_env)
    (mkDirectory true {["t"]}) "/tmp" "t" [] [] = (mkDirectory true {["t"]}, None).
Proof.
  assert (H : dir_valid (mkDirectory true {["t"]}) = false \/
              ce_mkdir_ok (mkCreateEnv true true true true true true true ex_ctor_env) = false \/
              "t" ∈ dir_entries (mkDirectory true {["t"]}))
    by (right; right; cbn; set_solver).
  split; [exact H|].
  exact (createToken_early_failure (mkCreateEnv true true true true true true true ex_ctor_env)
           (mkDirectory true {["t"]}) "/tmp" "t" [] [] H).
Defined.

(** When the token object cannot be created after the token directory was,
    [createToken] returns [NULL]; when the removal of the token directory
    goes through, the base directory is as before. *)
Theorem createToken_object_failure_rollback (env : CreateEnv)
    (baseDir : Directory) (basePath tokenDir : string)
    (label serial : list Byte.byte)
    (Hvalid : dir_valid baseDir = true)
    (Hmkdir : ce_mkdir_ok env = true)
    (Hfresh : tokenDir ∉ dir_entries baseDir)
    (Hunder : forall p, p ∈ dir_entries baseDir ->
              String.prefix (tokenDir ++ "/") p = false)
    (Hcreate : ce_create_ok env = false)
    (Hremove : ce_remove_dir_ok env = true) :
  createToken env baseDir basePath tokenDir label serial = (baseDir, None).
Proof.
  unfold createToken. rewrite Hvalid. cbn [negb].
  unfold dir_mkdir. rewrite Hmkdir, (bool_decide_eq_true_2 _ Hfresh). cbn [andb negb].
  rewrite Hcreate. cbn [negb fst].
  set (D1 := mkDirectory (dir_valid baseDir) ({[tokenDir]} ∪ dir_entries baseDir)).
  assert (Hc : has_children D1 tokenDir = false).
  { apply has_children_false. intros p Hp. apply not_true_iff_false.
    intros Hpre. cbn [dir_entries D1] in Hp.
    apply elem_of_union in Hp as [Hp|Hp].
    - apply elem_of_singleton in Hp. subst p.
      apply string_prefix_iff in Hpre as [r Hr].
      rewrite string_app_assoc in Hr. revert Hr.
      apply string_app_longer. discriminate.
    - rewrite (Hunder _ Hp) in Hpre. discriminate. }
  unfold dir_remove. rewrite Hremove, Hc.
  rewrite (bool_decide_eq_true_2 (tokenDir ∈ dir_entries D1)) by (cbn; set_solver).
  cbn [andb negb fst]. destruct baseDir as [v E]. cbn in *.
  f_equal. f_equal. apply set_eq. intros x. set_solver.
Qed.

Lemma createToken_object_failure_rollback_witness :
  createToken (mkCreateEnv true false true true true true true ex_ctor_env)
    (mkDirectory true {["u"]}) "/tmp" "t" [] [] = (mkDirectory true {["u"]}, None).
Proof.
  apply (createToken_object_failure_rollback
           (mkCreateEnv true false true true true true true ex_ctor_env)
           (mkDirectory true {["u"]}) "/tmp" "t" [] []);
    [reflexivity|reflexivity|cbn; set_solver| |reflexivity|reflexivity].
  intros p Hp. cbn in Hp. apply elem_of_singleton in Hp. subst p. reflexivity.
Defined.

(** When the three initial attribute writes go through, the token object
    holds the label, the serial number and the initial flags, its validity
    and its other attributes unchanged; the initial flags do not report a
    user PIN. *)
Theorem writeInitialAttributes_sets (env : CreateEnv) (o : ObjectFile)
    (label serial : list Byte.byte)
    (Hok : snd (writeInitialAttributes env o label serial) = true) :
  let o' := fst (writeInitialAttributes env o label serial) in
  getAttribute o' CKA_OS_TOKENLABEL = Some (AttrBytes label) /\
  getAttribute o' CKA_OS_TOKENSERIAL = Some (AttrBytes serial) /\
  getAttribute o' CKA_OS_TOKENFLAGS = Some (AttrULong initialFlags) /\
  Z.land initialFlags CKF_USER_PIN_INITIALIZED = 0%Z /\
  of_isValid o' = of_isValid o /\
  (forall j, j <> CKA_OS_TOKENLABEL -> j <> CKA_OS_TOKENSERIAL ->
     j <> CKA_OS_TOKENFLAGS -> getAttribute o' j = getAttribute o j).
Proof.
  rewrite writeInitialAttributes_ok in Hok.
  apply andb_true_iff in Hok as [Hok Hf]. apply andb_true_iff in Hok as [Hl Hs].
  unfold writeInitialAttributes, setAttribute. rewrite Hl, Hs, Hf. cbn.
  split; [reflexivity|]. split; [reflexivity|]. split; [reflexivity|].
  split; [reflexivity|]. split; [reflexivity|].
  intros j H1 H2 H3. unfold getAttribute; cbn.
  rewrite !decide_False by assumption. reflexivity.
Qed.

Lemma writeInitialAttributes_sets_witness :
  snd (writeInitialAttributes (mkCreateEnv true true true true true true true ex_ctor_env)
         ex_meta [Byte.x41] [Byte.x31]) = true /\
  getAttribute (fst (writeInitialAttributes
                 (mkCreateEnv true true true true true true true ex_ctor_env)
                 ex_meta [Byte.x41] [Byte.x31])) CKA_OS_TOKENLABEL = Some (AttrBytes [Byte.x41]).
Proof.
  assert (H : snd (writeInitialAttributes (mkCreateEnv true true true true true true true ex_ctor_env)
                     ex_meta [Byte.x41] [Byte.x31]) = true) by reflexivity.
  split; [exact H|].
  exact (proj1 (writeInitialAttributes_sets _ _ _ _ H)).
Defined.

(** ** Construction *)

Lemma removeObjects_empty (t : OSToken) :
  objects (removeObjects t ∅) = objects t /\ heap (removeObjects t ∅) = heap t.
Proof.
  split; [|reflexivity]. unfold removeObjects; cbn [objects].
  apply set_eq. intros p. rewrite elem_of_filter. split; [tauto|].
  intros Hp. split; [|exact Hp].
  unfold keepObject. destruct (heap t !! p); [|reflexivity].
  apply bool_decide_eq_true_2. set_solver.
Qed.

Lemma fold_addObject_back (env : IndexEnv) (l : list string) (t : OSToken) (p : positive) :
  p ∈ objects (fold_left (addObject env) l t) ->
  p ∈ objects t \/
  exists n, In n l /\
    heap (fold_left (addObject env) l t) !! p =
      Some (mkHandle (tokenPath t ++ "/" ++ n)
              (env_object_valid env (tokenPath t ++ "/" ++ n)) (tokenPath t)).
Proof.
  revert t; induction l as [|n l IH]; intros t Hp; [left; exact Hp|].
  cbn [fold_left] in *.
  destruct (IH (addObject env t n) Hp) as [Hin|(n' & Hn' & Hh)].
  - cbn [addObject objects] in Hin. apply elem_of_union in Hin as [Hin|Hin]; [|left; exact Hin].
    apply elem_of_singleton in Hin. subst p. right. exists n. split; [left; reflexivity|].
    destruct (fold_addObject_spec env l (addObject env t n)) as (_ & _ & _ & Hq & _).
    rewrite Hq by (cbn [addObject next_ptr]; lia).
    cbn [addObject heap]. rewrite lookup_insert_eq. reflexivity.
  - right. exists n'. split; [right; exact Hn'|]. exact Hh.
Qed.

Lemma fold_addObject_size (env : IndexEnv) (l : list string) (t : OSToken) :
  (forall p, p ∈ objects t -> (p < next_ptr t)%positive) ->
  size (objects (fold_left (addObject env) l t)) = size (objects t) + length l.
Proof.
  revert t; induction l as [|n l IH]; intros t Hb; cbn [fold_left length]; [lia|].
  rewrite IH.
  - cbn [addObject objects]. rewrite size_union, size_singleton; [lia|].
    intros x Hx1 Hx2. apply elem_of_singleton in Hx1. subst x.
    specialize (Hb _ Hx2). lia.
  - cbn [addObject objects next_ptr]. intros p Hp.
    apply elem_of_union in Hp as [Hp|Hp];
      [apply elem_of_singleton in Hp; subst p; lia|specialize (Hb _ Hp); lia].
Qed.

(** When the first reconciliation of the constructor passes its integrity
    check, the constructed token holds exactly one live handle per object
    file name of the listing: as many live handles as names, a handle on
    [tokenPath + "/" + name] for each name, and each live handle on one of
    those paths. *)
Theorem OSToken_new_one_handle_per_file (env : CtorEnv) (path : string)
    (Hrefresh : env_refresh (ctor_index env) = true)
    (Hmeta : of_isValid (ctor_tokenObject env) = true) :
  let F := filterObjects (env_files (ctor_index env)) in
  let t := OSToken_new env path in
  size (objects t) = size F /\
  (forall n, n ∈ F -> exists p, p ∈ objects t /\
     heap t !! p = Some (mkHandle (path ++ "/" ++ n)
                           (env_object_valid (ctor_index env) (path ++ "/" ++ n)) path)) /\
  (forall p, p ∈ objects t -> exists n, n ∈ F /\
     heap t !! p = Some (mkHandle (path ++ "/" ++ n)
                           (env_object_valid (ctor_index env) (path ++ "/" ++ n)) path)).
Proof.
  cbv zeta. unfold OSToken_new, index. cbn [reindexCheck].
  rewrite Hrefresh. cbn [tokenObject]. rewrite Hmeta. cbn [negb orb fst].
  cbn [addedFiles removedFiles negb currentFiles].
  set (E := ctor_index env).
  set (F := filterObjects (env_files E)).
  match goal with
  | |- context [fold_left (addObject E) (elements F) ?t] => set (t0 := t)
  end.
  destruct (removeObjects_empty (fold_left (addObject E) (elements F) t0)) as [Ho Hh].
  rewrite Ho, Hh.
  split; [|split].
  - rewrite fold_addObject_size by (cbn; set_solver). reflexivity.
  - intros n Hn.
    destruct (fold_addObject_spec E (elements F) t0) as (_ & _ & _ & _ & Hl).
    destruct (Hl n) as (p & Hp & _ & Hhp);
      [apply list_elem_of_In, elem_of_elements, Hn|].
    exists p. split; [exact Hp|exact Hhp].
  - intros p Hp. destruct (fold_addObject_back E (elements F) t0 p Hp) as [H|(n & Hn & Hhp)];
      [cbn in H; set_solver|].
    exists n. split; [|exact Hhp].
    apply elem_of_elements, list_elem_of_In, Hn.
Qed.

Lemma OSToken_new_one_handle_per_file_witness :
  size (objects (OSToken_new ex_ctor_env "/tmp/t")) = 1.
Proof.
  destruct (OSToken_new_one_handle_per_file ex_ctor_env "/tmp/t" eq_refl eq_refl)
    as (H & _ & _).
  rewrite H. vm_compute. reflexivity.
Defined.
